(** * toxic-text: the feature-engineering and normalisation pipeline

    A shallow embedding of [src/preprocessing.py] and
    [src/preprocessing/feature_engineering.py].

    Text is a [string] of 8-bit characters, one character per code point
    0..255, classified the way Python 3 classifies these code points.
    Every regular expression of the source is a constant; each one is
    embedded as the function that [re.sub] computes for it, and the
    comment above the function quotes the pattern. *)

From Stdlib Require Import Ascii String List Bool Arith ZArith NArith QArith Lia.
From Stdlib Require Import Sorting Permutation.
From stdpp Require Import gmap strings list.

Import ListNotations.
Local Open Scope string_scope.

(* ===================================================================== *)
(** ** Characters and strings *)
(* ===================================================================== *)

Module Text.

Definition code (c : ascii) : N := N_of_ascii c.

Definition in_range (lo hi : N) (c : ascii) : bool :=
  ((lo <=? code c) && (code c <=? hi))%N.

(** [[a-z]] and [[A-Z]]. *)
Definition is_lower (c : ascii) : bool := in_range 97 122 c.
Definition is_upper (c : ascii) : bool := in_range 65 90 c.

(** [[a-zA-Z]]; also what [[a-z]] matches under [re.IGNORECASE]. *)
Definition is_letter (c : ascii) : bool := is_lower c || is_upper c.

(** [\s] and [str.isspace]: tab, LF, VT, FF, CR, the separators FS..US,
    space, NEL and the no-break space. *)
Definition is_space (c : ascii) : bool :=
  in_range 9 13 c || in_range 28 32 c
  || (code c =? 133)%N || (code c =? 160)%N.

Definition is_bang (c : ascii) : bool := (code c =? 33)%N.
Definition is_at (c : ascii) : bool := (code c =? 64)%N.
Definition is_LF (c : ascii) : bool := (code c =? 10)%N.
Definition is_CR (c : ascii) : bool := (code c =? 13)%N.

(** [u] under [re.IGNORECASE]. *)
Definition is_u (c : ascii) : bool := (code c =? 117)%N || (code c =? 85)%N.

(** [str.lower] on one character: A-Z, and the Latin-1 capitals
    U+00C0..U+00DE except the multiplication sign U+00D7. *)
Definition lower_char (c : ascii) : ascii :=
  if is_upper c || (in_range 192 222 c && negb (code c =? 215)%N)
  then ascii_of_N (code c + 32) else c.

Fixpoint smap (f : ascii -> ascii) (s : string) : string :=
  match s with
  | EmptyString => EmptyString
  | String c r => String (f c) (smap f r)
  end.

(** [x.lower()] *)
Definition lower (s : string) : string := smap lower_char s.

(** [s.startswith(p)] *)
Fixpoint starts_with (p s : string) : bool :=
  match p, s with
  | EmptyString, _ => true
  | String a p', String b s' => Ascii.eqb a b && starts_with p' s'
  | String _ _, EmptyString => false
  end.

(** [x.replace(old, new)] for a non-empty [old]: the occurrences are found
    left to right and do not overlap.  [skip] counts the characters of the
    occurrence just replaced that are still to be passed over. *)
Fixpoint replace_from (old new : string) (skip : nat) (s : string) : string :=
  match s with
  | EmptyString => EmptyString
  | String c r =>
      match skip with
      | S k => replace_from old new k r
      | O =>
          if starts_with old s
          then new ++ replace_from old new (String.length old - 1) r
          else String c (replace_from old new 0 r)
      end
  end.

Definition replace (old new s : string) : string := replace_from old new 0 s.

(** [x.lstrip()], [x.rstrip()], [x.strip()] *)
Fixpoint lstrip (s : string) : string :=
  match s with
  | EmptyString => EmptyString
  | String c r => if is_space c then lstrip r else s
  end.

Fixpoint rstrip (s : string) : string :=
  match s with
  | EmptyString => EmptyString
  | String c r =>
      match rstrip r with
      | EmptyString => if is_space c then EmptyString else String c EmptyString
      | r' => String c r'
      end
  end.

Definition strip (s : string) : string := lstrip (rstrip s).

(** [re.sub(r"[^a-zA-Z]", ' ', x)] *)
Definition keep_letter (c : ascii) : ascii := if is_letter c then c else " "%char.
Definition sub_nonletter (s : string) : string := smap keep_letter s.

(** [re.sub(r"[^a-zA-Z!]", ' ', x)] *)
Definition keep_letter_bang (c : ascii) : ascii :=
  if is_letter c || is_bang c then c else " "%char.
Definition sub_nonletter_bang (s : string) : string := smap keep_letter_bang s.

(** [re.sub('\s+', ' ', x)]: every maximal run of white space becomes one
    space.  [in_run] tells that the previous character was white space,
    so that the run's replacement is already written. *)
Fixpoint sub_spaces_from (in_run : bool) (s : string) : string :=
  match s with
  | EmptyString => EmptyString
  | String c r =>
      if is_space c
      then (if in_run then sub_spaces_from true r
            else String " " (sub_spaces_from true r))
      else String c (sub_spaces_from false r)
  end.

Definition sub_spaces (s : string) : string := sub_spaces_from false s.

(** [re.sub('\!+', '! ', x)]: every maximal run of "!" becomes "! ". *)
Fixpoint sub_bangs_from (in_run : bool) (s : string) : string :=
  match s with
  | EmptyString => EmptyString
  | String c r =>
      if is_bang c
      then (if in_run then sub_bangs_from true r
            else String "!" (String " " (sub_bangs_from true r)))
      else String c (sub_bangs_from false r)
  end.

Definition sub_bangs (s : string) : string := sub_bangs_from false s.

(** [.*]: the characters up to the first line feed are passed over. *)
Fixpoint drop_line (s : string) : string :=
  match s with
  | EmptyString => EmptyString
  | String c r => if is_LF c then s else drop_line r
  end.

(** [[\r\n]*] *)
Fixpoint drop_crlf (s : string) : string :=
  match s with
  | EmptyString => EmptyString
  | String c r => if is_CR c || is_LF c then drop_crlf r else s
  end.

Fixpoint drop_chars (n : nat) (s : string) : string :=
  match n, s with
  | O, _ => s
  | S k, EmptyString => EmptyString
  | S k, String _ r => drop_chars k r
  end.

(** [re.sub(http_regex, ' ', x)] with
    [http_regex = r'^(http:\/\/www\.|https:\/\/www\.|http:\/\/|https:\/\/).*[\r\n]*'].
    Without [re.MULTILINE] the anchor holds at the start of the text only.
    Whichever alternative is taken, the greedy [.*] runs to the end of the
    first line and [[\r\n]*] takes the line breaks that follow it. *)
Definition sub_http (s : string) : string :=
  if starts_with "http://" s
  then String " " (drop_crlf (drop_line (drop_chars 7 s)))
  else if starts_with "https://" s
  then String " " (drop_crlf (drop_line (drop_chars 8 s)))
  else s.

(** Does the run of non-space characters that starts [s] hold an "@"? *)
Fixpoint run_has_at (s : string) : bool :=
  match s with
  | EmptyString => false
  | String c r => if is_space c then false else is_at c || run_has_at r
  end.

(** [re.sub(email_regex, ' ', x)] with [email_regex = r'\S*@\S*\s?'].
    A match can start only where a run of non-space characters holding an
    "@" starts; it takes the whole run and one white-space character after
    it.  [skipping] tells that a match is being passed over. *)
Fixpoint sub_email_from (skipping : bool) (s : string) : string :=
  match s with
  | EmptyString => EmptyString
  | String c r =>
      if skipping
      then (if is_space c then sub_email_from false r
            else sub_email_from true r)
      else if is_space c then String c (sub_email_from false r)
      else if run_has_at s then String " " (sub_email_from true r)
      else String c (sub_email_from false r)
  end.

Definition sub_email (s : string) : string := sub_email_from false s.

Definition head_is_letter (s : string) : bool :=
  match s with
  | EmptyString => false
  | String c _ => is_letter c
  end.

(** [re.sub(u_regex, 'you', x, flags=re.IGNORECASE)] with
    [u_regex = r'(?<![a-z])u(?![a-z])'].  [prev] tells that the character
    before [s] in the subject is a letter. *)
Fixpoint sub_u_from (prev : bool) (s : string) : string :=
  match s with
  | EmptyString => EmptyString
  | String c r =>
      if is_u c && negb prev && negb (head_is_letter r)
      then "you" ++ sub_u_from true r
      else String c (sub_u_from (is_letter c) r)
  end.

Definition sub_u (s : string) : string := sub_u_from false s.

(** [.fillna('unk')] on one text cell: [None] is the missing value. *)
Definition fillna_unk (x : option string) : string :=
  match x with
  | None => "unk"
  | Some s => s
  end.

(** The ten statements of [Sanitize], on one cell of the comment column. *)
Definition Sanitize_text (x : option string) : string :=
  let x := fillna_unk x in
  let x := replace "NEWLINE_TOKEN" " " x in
  let x := replace "TAB_TOKEN" " " x in
  let x := sub_http x in
  let x := sub_email x in
  let x := sub_u x in
  let x := sub_nonletter_bang x in
  let x := sub_bangs x in
  let x := strip (sub_spaces x) in
  lower x.

(** The five statements of [text_normalization], on one cell. *)
Definition text_normalization_text (x : option string) : string :=
  let x := fillna_unk x in
  let x := sub_nonletter x in
  let x := strip (sub_spaces x) in
  let x := replace "http" EmptyString x in
  lower x.

End Text.

Import Text.


(* ===================================================================== *)
(** ** Exceptions and the state-and-exception monad *)
(* ===================================================================== *)

Module Py.

(** The exceptions the modelled statements can raise.  [ReferenceError]
    stands for the use of a reference to no object, which no run from a
    state with live references meets.  [InputShapeError] is the error kind
    the specification names for the aggregator; no statement of the source
    raises it. *)
Inductive exn : Type :=
  | KeyError (key : string)
  | ValueError
  | AttributeError
  | TypeError
  | FileNotFoundError (path : string)
  | UnboundLocalError (name : string)
  | NotFittedError
  | ReferenceError
  | InputShapeError.

Inductive result (A : Type) : Type :=
  | Ok (a : A)
  | Raise (e : exn).
Arguments Ok {A} a.
Arguments Raise {A} e.


Definition rbind {A B} (r : result A) (k : A -> result B) : result B :=
  match r with
  | Ok a => k a
  | Raise e => Raise e
  end.

(** All-or-nothing map, left to right: the first exception wins. *)
Fixpoint mapR {A B} (f : A -> result B) (l : list A) : result (list B) :=
  match l with
  | [] => Ok []
  | a :: r =>
      match f a with
      | Raise e => Raise e
      | Ok b =>
          match mapR f r with
          | Raise e => Raise e
          | Ok bs => Ok (b :: bs)
          end
      end
  end.

(** A statement run in state [S]: the state it leaves, also when it
    raises, and its value or exception. *)
Definition M (S A : Type) : Type := S -> S * result A.

Definition ret {S A} (a : A) : M S A := fun s => (s, Ok a).
Definition raise {S A} (e : exn) : M S A := fun s => (s, Raise e).
Definition bind {S A B} (m : M S A) (k : A -> M S B) : M S B :=
  fun s =>
    match m s with
    | (s', Ok a) => k a s'
    | (s', Raise e) => (s', Raise e)
    end.
Definition get {S} : M S S := fun s => (s, Ok s).
Definition put {S} (s : S) : M S unit := fun _ => (s, Ok tt).
Definition lift_result {S A} (r : result A) : M S A := fun s => (s, r).

End Py.

Import Py.

Declare Scope py_scope.
Delimit Scope py_scope with py.
Notation "x <- m ;; k" := (bind m (fun x => k))
  (at level 100, m at next level, right associativity) : py_scope.
Notation "m ;;; k" := (bind m (fun _ => k))
  (at level 100, right associativity) : py_scope.

Local Open Scope py_scope.

(* ===================================================================== *)
(** ** Tables: the part of pandas the source uses *)
(* ===================================================================== *)

Module Pandas.

(** A cell holds a number, a text, or the missing value.  Numbers are
    rationals: a mean is the exact quotient. *)
Inductive cell : Type :=
  | NaN
  | Num (q : Q)
  | Str (s : string).

(** Equality of labels, as grouping and joining compare them; a missing
    label matches nothing. *)
Definition cell_eqb (a b : cell) : bool :=
  match a, b with
  | Num p, Num q => Qeq_bool p q
  | Str s, Str t => String.eqb s t
  | _, _ => false
  end.

(** The order in which [groupby] lists its groups. *)
Definition cell_leb (a b : cell) : bool :=
  match a, b with
  | NaN, _ => true
  | _, NaN => false
  | Num p, Num q => Qle_bool p q
  | Num _, Str _ => true
  | Str _, Num _ => false
  | Str s, Str t => String.leb s t
  end.

(** A DataFrame: the row labels and, in order, the named columns.  Every
    column of a well-formed frame is as long as the index. *)
Record DataFrame : Type := mkDF {
  index_name : option string;
  index : list cell;
  columns : list (string * list cell)
}.

Definition nrows (df : DataFrame) : nat := length (index df).

Definition well_formed (df : DataFrame) : Prop :=
  Forall (fun c => length (snd c) = nrows df) (columns df).

Fixpoint assoc {V} (k : string) (l : list (string * V)) : option V :=
  match l with
  | [] => None
  | (k', v) :: r => if String.eqb k k' then Some v else assoc k r
  end.

Fixpoint set_assoc {V} (k : string) (v : V) (l : list (string * V))
  : list (string * V) :=
  match l with
  | [] => [(k, v)]
  | (k', v') :: r =>
      if String.eqb k k' then (k, v) :: r else (k', v') :: set_assoc k v r
  end.

Definition col (name : string) (df : DataFrame) : option (list cell) :=
  assoc name (columns df).

(** [name in df] *)
Definition has_col (name : string) (df : DataFrame) : bool :=
  match col name df with Some _ => true | None => false end.

(** [df[name]] *)
Definition getitem (name : string) (df : DataFrame) : result (list cell) :=
  match col name df with
  | Some xs => Ok xs
  | None => Raise (KeyError name)
  end.

(** [df[name] = xs]: an existing column is replaced where it stands, a new
    one is added last. *)
Definition setitem (name : string) (xs : list cell) (df : DataFrame)
  : DataFrame :=
  mkDF (index_name df) (index df) (set_assoc name xs (columns df)).

(** [df.set_index(name)]: the column becomes the index and leaves the
    columns. *)
Definition set_index (name : string) (df : DataFrame) : result DataFrame :=
  match col name df with
  | None => Raise (KeyError name)
  | Some ks =>
      Ok (mkDF (Some name) ks
            (List.filter (fun c => negb (String.eqb name (fst c))) (columns df)))
  end.

(** *** [groupby([key]).mean()] *)

Definition notnan (x : cell) : bool :=
  match x with NaN => false | _ => true end.

(** The first occurrence of every label. *)
Fixpoint dedup (l : list cell) : list cell :=
  match l with
  | [] => []
  | x :: r => x :: List.filter (fun y => negb (cell_eqb x y)) (dedup r)
  end.

Fixpoint insert_sorted (x : cell) (l : list cell) : list cell :=
  match l with
  | [] => [x]
  | y :: r => if cell_leb x y then x :: y :: r else y :: insert_sorted x r
  end.

Definition sort_cells (l : list cell) : list cell :=
  fold_right insert_sorted [] l.

(** The groups: the distinct labels that are not missing, in ascending
    order. *)
Definition group_keys (ks : list cell) : list cell :=
  sort_cells (dedup (List.filter notnan ks)).

(** The values of a column in the rows whose key is [k]. *)
Definition group_values (ks : list cell) (k : cell) (xs : list cell)
  : list cell :=
  map snd (List.filter (fun p => cell_eqb k (fst p)) (combine ks xs)).

Definition nums (xs : list cell) : list Q :=
  flat_map (fun x => match x with Num q => [q] | _ => [] end) xs.

Definition Qsum (qs : list Q) : Q := fold_right Qplus 0%Q qs.

(** The mean of the numbers of a group; missing values are skipped, and
    a group without numbers has a missing mean. *)
Definition mean_cell (xs : list cell) : cell :=
  match nums xs with
  | [] => NaN
  | qs => Num (Qred (Qsum qs / inject_Z (Z.of_nat (length qs))))
  end.

Definition is_numeric (xs : list cell) : bool :=
  forallb (fun x => match x with Str _ => false | _ => true end) xs.

(** [df.groupby([key]).mean()]: one row per group, labelled by the key;
    the key column leaves the columns and the columns that hold text are
    left out of the aggregate. *)
Definition groupby_mean (key : string) (df : DataFrame) : result DataFrame :=
  match col key df with
  | None => Raise (KeyError key)
  | Some ks =>
      let gk := group_keys ks in
      Ok (mkDF (Some key) gk
            (map (fun c => (fst c,
                            map (fun k => mean_cell (group_values ks k (snd c))) gk))
               (List.filter (fun c => negb (String.eqb key (fst c)) && is_numeric (snd c))
                  (columns df))))
  end.

(** *** [left.join(right)]: a left join on the two indexes *)

(** The rows of an index that carry the label [k]; [s] is the number of
    the first row of [idx]. *)
Fixpoint positions_from (s : nat) (k : cell) (idx : list cell) : list nat :=
  match idx with
  | [] => []
  | y :: r =>
      if cell_eqb k y then s :: positions_from (S s) k r
      else positions_from (S s) k r
  end.

Definition positions (k : cell) (idx : list cell) : list nat :=
  positions_from 0 k idx.

(** The partners of a left row labelled [k]: the right rows with that
    label, or no partner at all. *)
Definition partners (ridx : list cell) (k : cell) : list (option nat) :=
  match positions k ridx with
  | [] => [None]
  | ps => map Some ps
  end.

(** A left column after the join: the value of every row, once for each
    partner of the row. *)
Definition join_left (lidx ridx : list cell) (xs : list cell) : list cell :=
  flat_map (fun p => repeat (snd p) (length (partners ridx (fst p))))
           (combine lidx xs).

(** A right column after the join: for every left row and each of its
    partners, the partner's value, missing when there is no partner. *)
Definition join_right (lidx ridx : list cell) (ys : list cell) : list cell :=
  flat_map (fun k =>
              map (fun o => match o with
                            | Some j => nth j ys NaN
                            | None => NaN
                            end)
                  (partners ridx k))
           lidx.

Definition overlap (l r : DataFrame) : bool :=
  existsb (fun c => has_col (fst c) r) (columns l).

(** [l.join(r)] with the defaults [how='left'] and no suffixes: a column
    name on both sides is a [ValueError]; the rows keep the order of [l]. *)
Definition join (l r : DataFrame) : result DataFrame :=
  if overlap l r then Raise ValueError
  else
    Ok (mkDF (index_name l) (join_left (index l) (index r) (index l))
          (map (fun c => (fst c, join_left (index l) (index r) (snd c))) (columns l)
           ++ map (fun c => (fst c, join_right (index l) (index r) (snd c)))
                  (columns r))%list).

(** [df[names].values]: the rows of the selected columns. *)
Definition getitems (names : list string) (df : DataFrame)
  : result (list (list cell)) :=
  rbind (mapR (fun n => getitem n df) names)
        (fun cols => Ok (map (fun i => map (fun xs => nth i xs NaN) cols)
                             (seq 0 (nrows df)))).

(** *** Frames are objects: a store of frames, addressed by reference *)

Abbreviation heap := (gmap nat DataFrame).

Definition new_frame (df : DataFrame) : M heap nat :=
  fun h => let l := fresh (dom h) in (<[l:=df]> h, Ok l).

Definition read_frame (l : nat) : M heap DataFrame :=
  fun h => match h !! l with
           | Some df => (h, Ok df)
           | None => (h, Raise ReferenceError)
           end.

Definition write_frame (l : nat) (df : DataFrame) : M heap unit :=
  fun h => (<[l:=df]> h, Ok tt).

(** [.fillna('unk')] *)
Definition fillna (x : cell) : result cell :=
  Ok (match x with NaN => Str "unk" | _ => x end).

(** A function of text applied to a cell; on a cell that holds no text
    the call raises [e]. *)
Definition on_text (e : exn) (f : string -> string) (x : cell) : result cell :=
  match x with
  | Str s => Ok (Str (f s))
  | _ => Raise e
  end.

(** [df[name] = df[name].apply(f)], on the frame object itself. *)
Definition apply_col (df : nat) (name : string) (f : cell -> result cell)
  : M heap unit :=
  d <- read_frame df ;;
  xs <- lift_result (getitem name d) ;;
  ys <- lift_result (mapR f xs) ;;
  write_frame df (setitem name ys d).

End Pandas.

Import Pandas.

(* ===================================================================== *)
(** ** feature_engineering.py: Sanitize and JoinAndSanitize *)
(* ===================================================================== *)

Module FeatureEngineering.

(** [Sanitize(df)]: ten assignments to the comment column of the frame
    object [df], which is also the value returned. *)
Definition Sanitize (df : nat) : M heap nat :=
  d <- read_frame df ;;
  let comment := if has_col "comment" d then "comment" else "comment_text" in
  apply_col df comment fillna ;;;
  apply_col df comment (on_text AttributeError (replace "NEWLINE_TOKEN" " ")) ;;;
  apply_col df comment (on_text AttributeError (replace "TAB_TOKEN" " ")) ;;;
  apply_col df comment (on_text TypeError sub_http) ;;;
  apply_col df comment (on_text TypeError sub_email) ;;;
  apply_col df comment (on_text TypeError sub_u) ;;;
  apply_col df comment (on_text TypeError sub_nonletter_bang) ;;;
  apply_col df comment (on_text TypeError sub_bangs) ;;;
  apply_col df comment (on_text TypeError (fun x => strip (sub_spaces x))) ;;;
  apply_col df comment (on_text AttributeError lower) ;;;
  ret df.

(** [JoinAndSanitize(cmt, annot)]: the joined frame is a new object. *)
Definition JoinAndSanitize (cmt annot : nat) : M heap nat :=
  c <- read_frame cmt ;;
  a <- read_frame annot ;;
  ci <- lift_result (set_index "rev_id" c) ;;
  g <- lift_result (groupby_mean "rev_id" a) ;;
  j <- lift_result (join ci g) ;;
  df <- new_frame j ;;
  df <- Sanitize df ;;
  ret df.

(** *** The auxiliary scores: Tfidfize, TfidfAndPredict and main *)

Section Sklearn.

(** What scikit-learn computes is left open: the document-term matrices,
    the fitted vectorizer and the fitted weights are values of any types,
    and fitting and predicting are any functions of their inputs. *)
Variables Matrix Vectorizer Weights : Type.

(** [TfidfVectorizer(max_features=n, ...).fit_transform(texts)] *)
Variable tfidf_fit_transform : N -> list cell -> Matrix * Vectorizer.
(** [tfidfer.transform(texts)] *)
Variable tfidf_transform : Vectorizer -> list cell -> Matrix.
(** The weights that [Ridge().fit(X, y)] computes, and [predict]. *)
Variable ridge_solve : Matrix -> list cell -> Weights.
Variable ridge_predict : Weights -> Matrix -> list cell.

(** A [Ridge] estimator is an object: [fit] stores the weights in it and
    returns the estimator itself. *)
Abbreviation estimators := (gmap nat (option Weights)).

(** [Ridge()] *)
Definition Ridge : M estimators nat :=
  fun e => let r := fresh (dom e) in (<[r:=None]> e, Ok r).

(** [model.fit(X, y)] *)
Definition fit (model : nat) (X : Matrix) (y : list cell) : M estimators nat :=
  fun e => (<[model:=Some (ridge_solve X y)]> e, Ok model).

(** [model.predict(X)] *)
Definition predict (model : nat) (X : Matrix) : M estimators (list cell) :=
  fun e => match e !! model with
           | Some (Some w) => (e, Ok (ridge_predict w X))
           | Some None => (e, Raise NotFittedError)
           | None => (e, Raise ReferenceError)
           end.

(** The frames, the estimators and the files on disk. *)
Record world : Type := mkWorld {
  frames : heap;
  models : estimators;
  disk : gmap string DataFrame
}.

Definition on_frames {A} (m : M heap A) : M world A :=
  fun w => let (h, r) := m (frames w) in (mkWorld h (models w) (disk w), r).

Definition on_models {A} (m : M estimators A) : M world A :=
  fun w => let (e, r) := m (models w) in (mkWorld (frames w) e (disk w), r).

(** [pd.read_csv(path)] *)
Definition read_csv (path : string) : M world nat :=
  fun w => match disk w !! path with
           | Some df => on_frames (new_frame df) w
           | None => (w, Raise (FileNotFoundError path))
           end.

(** The labels 0, 1, ... that a frame read from a file has. *)
Definition range_index (n : nat) : list cell :=
  map (fun i => Num (inject_Z (Z.of_nat i))) (seq 0 n).

(** [df.to_csv(path, index=False)] *)
Definition to_csv (df : nat) (path : string) : M world unit :=
  d <- on_frames (read_frame df) ;;
  fun w => (mkWorld (frames w) (models w)
              (<[path := mkDF None (range_index (nrows d)) (columns d)]> (disk w)),
            Ok tt).

(** [Tfidfize(df, vocab_size)] *)
Definition Tfidfize (df : nat) (vocab_size : N) : M heap (Matrix * Vectorizer) :=
  d <- read_frame df ;;
  let max_vocab := vocab_size in
  let comment := if has_col "comment" d then "comment" else "comment_text" in
  xs <- lift_result (getitem comment d) ;;
  ret (tfidf_fit_transform max_vocab xs).

(** [TfidfAndPredict(tfidfer, model, train, test)] *)
Definition TfidfAndPredict (tfidfer : Vectorizer) (model train test : nat)
  : M world (list cell * list cell) :=
  tr <- on_frames (read_frame train) ;;
  te <- on_frames (read_frame test) ;;
  xtr <- lift_result (getitem "comment_text" tr) ;;
  let tfidf_train := tfidf_transform tfidfer xtr in
  xte <- lift_result (getitem "comment_text" te) ;;
  let tfidf_test := tfidf_transform tfidfer xte in
  train_scores <- on_models (predict model tfidf_train) ;;
  test_scores <- on_models (predict model tfidf_test) ;;
  ret (train_scores, test_scores).

(** [df[name].values] *)
Definition values (df : nat) (name : string) : M world (list cell) :=
  d <- on_frames (read_frame df) ;;
  lift_result (getitem name d).

(** [df[name] = xs] for an array [xs]: as many values as the frame has
    rows, or a [ValueError]. *)
Definition assign (df : nat) (name : string) (xs : list cell) : M world unit :=
  d <- on_frames (read_frame df) ;;
  if (length xs =? nrows d)%nat
  then on_frames (write_frame df (setitem name xs d))
  else raise ValueError.

(** The three calls of [fit] in [main], on the one estimator [ridge]. *)
Definition fit_models (ridge : nat)
    (X_toxic : Matrix) (y_toxic : list cell)
    (X_attack : Matrix) (y_attack : list cell)
    (X_aggression : Matrix) (y_aggression : list cell)
  : M estimators (nat * nat * nat) :=
  model_toxic <- fit ridge X_toxic y_toxic ;;
  model_attack <- fit ridge X_attack y_attack ;;
  model_aggression <- fit ridge X_aggression y_aggression ;;
  ret (model_toxic, model_attack, model_aggression).

(** The same statement, [model = ridge.fit(X, y)], once for each corpus of
    a list, in the order of the list. *)
Fixpoint fit_each (ridge : nat) (corpora : list (Matrix * list cell))
  : M estimators (list nat) :=
  match corpora with
  | [] => ret []
  | c :: rest =>
      model <- fit ridge (fst c) (snd c) ;;
      models <- fit_each ridge rest ;;
      ret (model :: models)
  end.

(** [main()].  The calls of [print] are left out, and with them the calls
    of [cross_val_score], which fits copies of the estimator and whose
    results are only printed. *)
Definition main : M world unit :=
  toxic_comments <- read_csv "./data/toxicity_annotated_comments.tsv" ;;
  toxic_annot <- read_csv "./data/toxicity_annotations.tsv" ;;
  agg_comments <- read_csv "./data/aggression_annotated_comments.tsv" ;;
  agg_annot <- read_csv "./data/aggression_annotations.tsv" ;;
  attack_comments <- read_csv "./data/attack_annotated_comments.tsv" ;;
  attack_annot <- read_csv "./data/attack_annotations.tsv" ;;
  toxic <- on_frames (JoinAndSanitize toxic_comments toxic_annot) ;;
  attack <- on_frames (JoinAndSanitize attack_comments attack_annot) ;;
  aggression <- on_frames (JoinAndSanitize agg_comments agg_annot) ;;
  Xt <- on_frames (Tfidfize toxic 60000%N) ;;
  let X_toxic := fst Xt in
  let tfidfer_toxic := snd Xt in
  y_toxic <- values toxic "toxicity" ;;
  Xa <- on_frames (Tfidfize attack 60000%N) ;;
  let X_attack := fst Xa in
  let tfidfer_attack := snd Xa in
  y_attack <- values attack "attack" ;;
  Xg <- on_frames (Tfidfize aggression 60000%N) ;;
  let X_aggression := fst Xg in
  let tfidfer_aggression := snd Xg in
  y_aggression <- values aggression "aggression" ;;
  ridge <- on_models Ridge ;;
  fitted <- on_models (fit_models ridge X_toxic y_toxic X_attack y_attack
                         X_aggression y_aggression) ;;
  let model_toxic := fst (fst fitted) in
  let model_attack := snd (fst fitted) in
  let model_aggression := snd fitted in
  train <- read_csv "./data/train_de.csv" ;;
  test <- read_csv "./data/test.csv" ;;
  train <- on_frames (Sanitize train) ;;
  test <- on_frames (Sanitize test) ;;
  toxic_scores <- TfidfAndPredict tfidfer_toxic model_toxic train test ;;
  attack_scores <- TfidfAndPredict tfidfer_attack model_attack train test ;;
  aggression_scores <-
    TfidfAndPredict tfidfer_aggression model_aggression train test ;;
  assign train "toxic_level" (fst toxic_scores) ;;;
  assign train "attack" (fst attack_scores) ;;;
  assign train "aggression" (fst aggression_scores) ;;;
  assign test "toxic_level" (snd toxic_scores) ;;;
  assign test "attack" (snd attack_scores) ;;;
  assign test "aggression" (snd aggression_scores) ;;;
  to_csv train "./data/train_with_convai_ridge.csv" ;;;
  to_csv test "./data/test_with_convai_ridge.csv".

End Sklearn.

End FeatureEngineering.

Import FeatureEngineering.

(* ===================================================================== *)
(** ** keras.preprocessing: Tokenizer and pad_sequences *)
(* ===================================================================== *)

Module Keras.

(** The default [filters] of [text.Tokenizer]: the ASCII punctuation
    without the apostrophe, the tab and the line feed. *)
Definition is_filtered (c : ascii) : bool :=
  in_range 33 38 c || in_range 40 47 c || in_range 58 64 c
  || in_range 91 96 c || in_range 123 126 c
  || (code c =? 9)%N || (code c =? 10)%N.

(** [text.split(' ')] *)
Fixpoint split_space (s : string) : list string :=
  match s with
  | EmptyString => [EmptyString]
  | String c r =>
      if Ascii.eqb c " "
      then EmptyString :: split_space r
      else match split_space r with
           | w :: ws => String c w :: ws
           | [] => [String c EmptyString]
           end
  end.

Definition nonempty (w : string) : bool :=
  match w with EmptyString => false | _ => true end.

(** [text_to_word_sequence(text)] with the defaults [lower=True] and
    [split=' ']. *)
Definition text_to_word_sequence (t : string) : list string :=
  List.filter nonempty
    (split_space (smap (fun c => if is_filtered c then " "%char else c) (lower t))).

(** The state of a [Tokenizer]: [word_counts] in order of first
    occurrence, [word_index] in order of rank. *)
Record Tokenizer : Type := mkTokenizer {
  num_words : nat;
  word_counts : list (string * nat);
  word_index : list (string * nat)
}.

(** [text.Tokenizer(num_words=n)] *)
Definition new_Tokenizer (n : nat) : Tokenizer := mkTokenizer n [] [].

(** [word_counts[w] += 1], a new word entering last. *)
Fixpoint count_word (w : string) (wc : list (string * nat)) : list (string * nat) :=
  match wc with
  | [] => [(w, 1)]
  | (w', n) :: r =>
      if String.eqb w w' then (w', S n) :: r else (w', n) :: count_word w r
  end.

(** [wcounts.sort(key=lambda x: x[1], reverse=True)]: the sort is stable,
    words of equal count keep their order. *)
Fixpoint insert_by_count (x : string * nat) (l : list (string * nat))
  : list (string * nat) :=
  match l with
  | [] => [x]
  | y :: r =>
      if (snd x <? snd y)%nat then y :: insert_by_count x r else x :: y :: r
  end.

Definition sort_by_count (l : list (string * nat)) : list (string * nat) :=
  fold_right insert_by_count [] l.

(** [dict(zip(sorted_voc, range(1, len(sorted_voc) + 1)))] *)
Definition index_words (sorted_voc : list string) : list (string * nat) :=
  combine sorted_voc (seq 1 (length sorted_voc)).

(** [tokenizer.fit_on_texts(texts)] *)
Definition fit_on_texts (texts : list string) (t : Tokenizer) : Tokenizer :=
  let wc := fold_left (fun wc w => count_word w wc)
                      (concat (map text_to_word_sequence texts))
                      (word_counts t) in
  mkTokenizer (num_words t) wc (index_words (map fst (sort_by_count wc))).

(** The loop body of [texts_to_sequences_generator]: a word without an
    index, or with an index not below a non-zero [num_words], is left
    out. *)
Definition encode_words (t : Tokenizer) (ws : list string) : list nat :=
  flat_map (fun w =>
              match assoc w (word_index t) with
              | None => []
              | Some i =>
                  if negb (num_words t =? 0)%nat && (num_words t <=? i)%nat then []
                  else [i]
              end) ws.

(** [tokenizer.texts_to_sequences(texts)] for a list of texts. *)
Definition texts_to_sequences (t : Tokenizer) (texts : list string)
  : list (list nat) :=
  map (fun x => encode_words t (text_to_word_sequence x)) texts.

(** Iterating over a [str] yields its characters, each a text of length
    one. *)
Fixpoint chars (s : string) : list string :=
  match s with
  | EmptyString => []
  | String c r => String c EmptyString :: chars r
  end.

(** One row of [sequence.pad_sequences(sequences, maxlen)] with the
    defaults [padding='pre'], [truncating='pre'], [value=0].  An empty
    sequence leaves its row of zeros.  Otherwise [trunc = s[-maxlen:]],
    which is all of [s] when [maxlen] is 0, is written to the last
    [len(trunc)] places of the row: with [maxlen = 0] the row has no
    places, and only a [trunc] of length one can be broadcast into it. *)
Definition pad_row (maxlen : nat) (s : list nat) : result (list nat) :=
  match s with
  | [] => Ok (repeat 0 maxlen)
  | _ =>
      let trunc := if (maxlen =? 0)%nat then s else skipn (length s - maxlen) s in
      if (maxlen =? 0)%nat
      then (if (length trunc =? 1)%nat then Ok [] else Raise ValueError)
      else Ok (repeat 0 (maxlen - length trunc) ++ trunc)%list
  end.

Definition pad_sequences (sequences : list (list nat)) (maxlen : nat)
  : result (list (list nat)) :=
  mapR (pad_row maxlen) sequences.

End Keras.

Import Keras.

(* ===================================================================== *)
(** ** preprocessing.py: text_normalization and TextPreprocessor *)
(* ===================================================================== *)

Module Preprocessing.

(** [text_normalization(text_data)]: five assignments to the column
    [comment_text] of the frame object; nothing is returned. *)
Definition text_normalization (text_data : nat) : M heap unit :=
  apply_col text_data "comment_text" fillna ;;;
  apply_col text_data "comment_text" (on_text TypeError sub_nonletter) ;;;
  apply_col text_data "comment_text"
    (on_text TypeError (fun x => strip (sub_spaces x))) ;;;
  apply_col text_data "comment_text"
    (on_text AttributeError (replace "http" EmptyString)) ;;;
  apply_col text_data "comment_text" (on_text AttributeError lower).

Record TextPreprocessor : Type := mkTextPreprocessor {
  max_nb_words : nat;
  max_padding_length : nat;
  combine_data : bool;
  use_extra_features : bool;
  tokenizer : Tokenizer
}.

(** [TextPreprocessor(max_nb_words, max_padding_length, combine_data,
    use_extra_features)] *)
Definition init (max_nb_words max_padding_length : nat)
    (combine_data use_extra_features : bool) : TextPreprocessor :=
  mkTextPreprocessor max_nb_words max_padding_length combine_data
    use_extra_features (new_Tokenizer max_nb_words).

Definition set_tokenizer (t : Tokenizer) (self : TextPreprocessor)
  : TextPreprocessor :=
  mkTextPreprocessor (max_nb_words self) (max_padding_length self)
    (combine_data self) (use_extra_features self) t.

(** [self.train_tokenizer(train_data, test_data)] *)
Definition train_tokenizer (train_data test_data : list string)
    (self : TextPreprocessor) : TextPreprocessor :=
  if combine_data self
  then let all_text := (train_data ++ test_data)%list in
       set_tokenizer (fit_on_texts all_text (tokenizer self)) self
  else set_tokenizer (fit_on_texts train_data (tokenizer self)) self.

(** [self.tokenize_single_sentence(sentence)]: the [str] itself is handed
    to [texts_to_sequences], which iterates over it, and the rows are
    padded to [self.max_nb_words]. *)
Definition tokenize_single_sentence (self : TextPreprocessor) (sentence : string)
  : result (list (list nat)) :=
  let sentence := sub_nonletter sentence in
  let sentence := strip (sub_spaces sentence) in
  let sentence := lower sentence in
  let tokenized_sentence := texts_to_sequences (tokenizer self) (chars sentence) in
  pad_sequences tokenized_sentence (max_nb_words self).

(** The preprocessor object and the store of frames. *)
Record state : Type := mkState {
  self_ : TextPreprocessor;
  frames : heap
}.

Definition on_frames {A} (m : M heap A) : M state A :=
  fun st => let (h, r) := m (frames st) in (mkState (self_ st) h, r).

Definition get_self : M state TextPreprocessor :=
  fun st => (st, Ok (self_ st)).

Definition modify_self (f : TextPreprocessor -> TextPreprocessor) : M state unit :=
  fun st => (mkState (f (self_ st)) (frames st), Ok tt).

(** The text of a cell of a column that holds text only, as the column
    [comment_text] does after [text_normalization]. *)
Definition as_text (x : cell) : result string :=
  match x with
  | Str s => Ok s
  | _ => Raise AttributeError
  end.

Section LoadAndTokenize.

(** The tables behind the paths that [pd.read_csv] is given. *)
Variable files : gmap string DataFrame.

(** [utils.get_sentence] is not part of the sources at hand: it is any
    function of the index, the class list and the training frame. *)
Variables SampleText SampleTarget : Type.
Variable get_sentence :
  nat -> list string -> nat -> M heap (SampleText * SampleTarget).

(** [pd.read_csv(path)]: a new frame object. *)
Definition read_csv (path : string) : M heap nat :=
  match files !! path with
  | Some df => new_frame df
  | None => raise (FileNotFoundError path)
  end.

(** The two tuples that [load_and_tokenize] returns. *)
Inductive dataset : Type :=
  | WithAux (X_train : list (list nat)) (train_aux y_train : list (list cell))
            (X_test : list (list nat)) (test_aux : list (list cell))
            (word_index : list (string * nat))
            (sample_text : SampleText) (sample_target : SampleTarget)
  | Plain (X_train : list (list nat)) (y_train : list (list cell))
          (X_test : list (list nat))
          (word_index : list (string * nat))
          (sample_text : SampleText) (sample_target : SampleTarget).

(** Reading a local variable: unbound, it is an [UnboundLocalError]. *)
Definition local {S A} (name : string) (v : option A) : M S A :=
  match v with
  | Some a => ret a
  | None => raise (UnboundLocalError name)
  end.

(** [self.load_and_tokenize(class_list, sample_index)].  The calls of
    [print] are left out. *)
Definition load_and_tokenize (class_list : list string)
    (sample_index : option nat) : M state dataset :=
  self <- get_self ;;
  tt_ <- (if use_extra_features self
          then (train <- on_frames (read_csv "./data/train_with_convai.csv") ;;
                test <- on_frames (read_csv "./data/test_with_convai.csv") ;;
                ret (train, test))
          else (train <- on_frames (read_csv "./data/train.csv") ;;
                test <- on_frames (read_csv "./data/test.csv") ;;
                ret (train, test))) ;;
  let train := fst tt_ in
  let test := snd tt_ in
  on_frames (text_normalization train) ;;;
  on_frames (text_normalization test) ;;;
  sample <- (match sample_index with
             | Some i =>
                 st <- on_frames (get_sentence i class_list train) ;;
                 ret (Some st)
             | None => ret None
             end) ;;
  let sample_text := option_map fst sample in
  let sample_target := option_map snd sample in
  tr <- on_frames (read_frame train) ;;
  te <- on_frames (read_frame test) ;;
  train_comments <- lift_result (rbind (getitem "comment_text" tr) (mapR as_text)) ;;
  y_train <- lift_result (getitems class_list tr) ;;
  test_comments <- lift_result (rbind (getitem "comment_text" te) (mapR as_text)) ;;
  aux <- (if use_extra_features self
          then (train_aux <- lift_result
                  (getitems ["toxic_level"; "attack"; "aggression"] tr) ;;
                test_aux <- lift_result
                  (getitems ["toxic_level"; "attack"; "aggression"] te) ;;
                ret (Some (train_aux, test_aux)))
          else ret None) ;;
  let train_aux := option_map fst aux in
  let test_aux := option_map snd aux in
  modify_self (train_tokenizer train_comments test_comments) ;;;
  self <- get_self ;;
  let train_comments_tokenized :=
    texts_to_sequences (tokenizer self) train_comments in
  let test_comments_tokenized :=
    texts_to_sequences (tokenizer self) test_comments in
  let word_index := word_index (tokenizer self) in
  X_train <- lift_result
    (pad_sequences train_comments_tokenized (max_padding_length self)) ;;
  X_test <- lift_result
    (pad_sequences test_comments_tokenized (max_padding_length self)) ;;
  if use_extra_features self
  then (train_aux <- local "train_aux" train_aux ;;
        test_aux <- local "test_aux" test_aux ;;
        sample_text <- local "sample_text" sample_text ;;
        sample_target <- local "sample_target" sample_target ;;
        ret (WithAux X_train train_aux y_train X_test test_aux word_index
               sample_text sample_target))
  else (sample_text <- local "sample_text" sample_text ;;
        sample_target <- local "sample_target" sample_target ;;
        ret (Plain X_train y_train X_test word_index sample_text sample_target)).

End LoadAndTokenize.

End Preprocessing.

Import Preprocessing.

(* ===================================================================== *)
(** ** Notions used in the statements *)
(* ===================================================================== *)

(** The column that [Sanitize] rewrites. *)
Definition comment_column (d : DataFrame) : string :=
  if has_col "comment" d then "comment" else "comment_text".

(** A cell that holds a text or is missing, and what it holds. *)
Definition textual (x : cell) : bool :=
  match x with Num _ => false | _ => true end.

Definition text_of (x : cell) : option string :=
  match x with Str s => Some s | _ => None end.

(** [fillna('unk')] on one cell. *)
Definition fill (x : cell) : cell :=
  match x with NaN => Str "unk" | _ => x end.

(** The cell that [Sanitize], respectively [text_normalization], leaves in
    the place of [x]. *)
Definition sanitized (x : cell) : cell := Str (Sanitize_text (text_of x)).
Definition normalized (x : cell) : cell := Str (text_normalization_text (text_of x)).

(** [d'] is [d] with the column [n] rewritten cell by cell by [f]: the
    labels, the names and the order of the columns, and every other column
    are those of [d]. *)
Definition rewrites_column (f : cell -> cell) (n : string) (d d' : DataFrame)
  : Prop :=
  index_name d' = index_name d
  /\ index d' = index d
  /\ map fst (columns d') = map fst (columns d)
  /\ (exists xs, col n d = Some xs /\ col n d' = Some (map f xs))
  /\ forall n', n' <> n -> col n' d' = col n' d.

(** A store with one frame, of one row and one text column. *)
Definition one_comment (name : string) : heap :=
  {[ 0%nat := mkDF None [Num 0] [(name, [Str "A"])] ]}.

(** The number of rows that carry the label [id]. *)
Definition count_label (id : cell) (labels : list cell) : nat :=
  length (List.filter (fun x => cell_eqb id x) labels).

Definition is_num (x : cell) : bool :=
  match x with Num _ => true | _ => false end.

(** The annotation values of the comment [id]: the numbers of the column
    [vals] in the rows whose key is [id]. *)
Definition annotation_values (id : cell) (keys vals : list cell) : list Q :=
  nums (group_values keys id vals).

(** *** Shapes of text *)

(** A character of sanitized text: a small letter, "!" or the space; and
    a character of text in which only the case remains to be folded. *)
Definition clean_char (c : ascii) : bool :=
  is_lower c || is_bang c || Ascii.eqb c " ".

Definition plain_char (c : ascii) : bool :=
  is_letter c || is_bang c || Ascii.eqb c " ".

Fixpoint all_chars (P : ascii -> bool) (s : string) : bool :=
  match s with
  | EmptyString => true
  | String c r => P c && all_chars P r
  end.

Definition head_is_space (s : string) : bool :=
  match s with
  | EmptyString => false
  | String c _ => is_space c
  end.

Definition head_is (a : ascii) (s : string) : bool :=
  match s with
  | EmptyString => false
  | String c _ => Ascii.eqb c a
  end.


(** Every "!" is followed by white space. *)
Fixpoint banged (s : string) : bool :=
  match s with
  | EmptyString => true
  | String c r => (if is_bang c then head_is_space r else true) && banged r
  end.

(** Every "!" is followed by a space, every white-space character is a
    space, and no two of them are adjacent. *)
Fixpoint spaced (s : string) : bool :=
  match s with
  | EmptyString => true
  | String c r =>
      (if is_bang c then head_is " " r else true)
      && (if is_space c then Ascii.eqb c " " && negb (head_is_space r) else true)
      && spaced r
  end.

(** The same, for a text that white space does not end: a "!" may also
    end the text. *)
Fixpoint tidy (s : string) : bool :=
  match s with
  | EmptyString => true
  | String c r =>
      match r with
      | EmptyString => negb (is_space c)
      | String d _ =>
          (if is_bang c then Ascii.eqb d " " else true)
          && (if is_space c then Ascii.eqb c " " && negb (is_space d) else true)
          && tidy r
      end
  end.




(** A letter or the space, and a small letter or the space. *)
Definition letter_or_space (c : ascii) : bool := is_letter c || Ascii.eqb c " ".
Definition lower_or_space (c : ascii) : bool := is_lower c || Ascii.eqb c " ".

(** How often the word [w] occurs among the words [ws]. *)
Definition occurrences (w : string) (ws : list string) : nat :=
  length (List.filter (String.eqb w) ws).

(** The count of [w] in [word_counts]. *)
Definition count_of (w : string) (wc : list (string * nat)) : nat :=
  match assoc w wc with Some n => n | None => 0 end.

(** The words of the texts that [train_tokenizer] fits the tokenizer on. *)
Definition fitted_words (combine_data : bool) (train_data test_data : list string)
  : list string :=
  concat (map text_to_word_sequence
            (if combine_data then train_data ++ test_data else train_data)%list).

(** The order of [word_index]: a word comes before the words that are
    not more frequent. *)
Definition by_count (x y : string * nat) : Prop := snd y <= snd x.

(** A comment table in which the id 10 occurs twice and an annotation
    table with the ids 12 and 10; the same with a comment table without
    rows, and with a comment table without the key column. *)
Definition example_comments : DataFrame :=
  mkDF None [Num 0; Num 1; Num 2]
    [("rev_id", [Num 10; Num 11; Num 10]);
     ("comment", [Str "a"; Str "b"; Str "c"])].

Definition example_annotations : DataFrame :=
  mkDF None [Num 0; Num 1; Num 2]
    [("rev_id", [Num 12; Num 10; Num 10]);
     ("toxicity", [Num 1; Num 0; Num 1])].

Definition example_tables : heap :=
  <[0%nat := example_comments]> (<[1%nat := example_annotations]> ∅).





(** Assignments [df[name] = df[name].apply(f)] for the functions of a list,
    one after the other, followed by [k]. *)
Definition seq_apply {A} (df : nat) (name : string)
    (fs : list (cell -> result cell)) (k : M heap A) : M heap A :=
  fold_right (fun f m => bind (apply_col df name f) (fun _ => m)) k fs.

(** What such assignments compute from the column they start with. *)
Fixpoint run_steps (fs : list (cell -> result cell)) (xs : list cell)
  : result (list cell) :=
  match fs with
  | [] => Ok xs
  | f :: fs' => rbind (mapR f xs) (run_steps fs')
  end.

Definition Sanitize_steps : list (cell -> result cell) :=
  [ fillna;
    on_text AttributeError (replace "NEWLINE_TOKEN" " ");
    on_text AttributeError (replace "TAB_TOKEN" " ");
    on_text TypeError sub_http;
    on_text TypeError sub_email;
    on_text TypeError sub_u;
    on_text TypeError sub_nonletter_bang;
    on_text TypeError sub_bangs;
    on_text TypeError (fun x => strip (sub_spaces x));
    on_text AttributeError lower ].

Definition text_normalization_steps : list (cell -> result cell) :=
  [ fillna;
    on_text TypeError sub_nonletter;
    on_text TypeError (fun x => strip (sub_spaces x));
    on_text AttributeError (replace "http" EmptyString);
    on_text AttributeError lower ].


(** The same three texts as the text column [name] of a table. *)
Definition example_frame (name : string) (texts : list cell) : DataFrame :=
  mkDF None [Num 0; Num 1; Num 2] [(name, texts)].

Definition example_cells : list cell :=
  [Str "I LOVE this!!"; NaN; Str "http://x.com you are u"].

(** Two small files, a helper in the place of [get_sentence] and a new
    preprocessor, for a run of [load_and_tokenize]. *)
Definition example_files : gmap string DataFrame :=
  <["./data/train.csv" :=
      mkDF None [Num 0; Num 1]
        [("comment_text", [Str "You are GREAT"; Str "you are n0t"]);
         ("toxic", [Num 0; Num 1])]]>
  (<["./data/test.csv" :=
      mkDF None [Num 0] [("comment_text", [Str "are you"])]]> ∅).

Definition example_get_sentence (i : nat) (class_list : list string) (train : nat)
  : M heap (string * list cell) :=
  bind (read_frame train)
    (fun d => lift_result
       (rbind (getitem "comment_text" d) (fun xs =>
        rbind (getitems class_list d) (fun ys =>
        match nth i xs NaN with
        | Str s => Ok (s, nth i ys [])
        | _ => Raise TypeError
        end)))).

Definition example_state : state :=
  mkState (init 10 4 false false) ∅.

(** A comment table that has a column named like a judgment column. *)
Definition shared_comments : DataFrame :=
  mkDF None [Num 0]
    [("rev_id", [Num 10]); ("comment", [Str "a"]); ("toxicity", [Num 5])].

Definition shared_tables : heap :=
  <[0%nat := shared_comments]> (<[1%nat := example_annotations]> ∅).

(** The rank of a word in [word_index], 0 for a word that has none. *)
Definition rank_of (t : Tokenizer) (w : string) : nat :=
  match assoc w (word_index t) with Some r => r | None => 0 end.

(** The texts that [train_tokenizer] fits the tokenizer on. *)
Definition fitted_texts (combine_data : bool) (train_data test_data : list string)
  : list string :=
  (if combine_data then train_data ++ test_data else train_data)%list.

(** A statement that leaves every file but those of [paths] as it is,
    whether it returns or raises. *)
Definition writes_only {Weights A : Type} (paths : list string)
    (m : M (FeatureEngineering.world Weights) A) : Prop :=
  forall w p, ~ In p paths ->
    FeatureEngineering.disk Weights (fst (m w)) !! p
    = FeatureEngineering.disk Weights w !! p.










(** The parts of what [load_and_tokenize] returns. *)
Definition X_train_of {T U : Type} (d : dataset T U) : list (list nat) :=
  match d with
  | WithAux _ _ X _ _ _ _ _ _ _ => X
  | Plain _ _ X _ _ _ _ _ => X
  end.

Definition y_train_of {T U : Type} (d : dataset T U) : list (list cell) :=
  match d with
  | WithAux _ _ _ _ y _ _ _ _ _ => y
  | Plain _ _ _ y _ _ _ _ => y
  end.

Definition X_test_of {T U : Type} (d : dataset T U) : list (list nat) :=
  match d with
  | WithAux _ _ _ _ _ X _ _ _ _ => X
  | Plain _ _ _ _ X _ _ _ => X
  end.

Definition word_index_of {T U : Type} (d : dataset T U) : list (string * nat) :=
  match d with
  | WithAux _ _ _ _ _ _ _ wi _ _ => wi
  | Plain _ _ _ _ _ wi _ _ => wi
  end.

Definition has_aux {T U : Type} (d : dataset T U) : bool :=
  match d with
  | WithAux _ _ _ _ _ _ _ _ _ _ => true
  | Plain _ _ _ _ _ _ _ _ => false
  end.

(** The files that [load_and_tokenize] reads. *)
Definition train_path (self : TextPreprocessor) : string :=
  if use_extra_features self
  then "./data/train_with_convai.csv" else "./data/train.csv".

Definition test_path (self : TextPreprocessor) : string :=
  if use_extra_features self
  then "./data/test_with_convai.csv" else "./data/test.csv".

(** The text that [text_normalization] leaves in the place of a cell. *)
Definition normalized_text (x : cell) : string :=
  text_normalization_text (text_of x).


(** A table with no text column at all. *)
Definition keyless_number : DataFrame :=
  mkDF None [Num 0] [("toxic", [Num 1])].

(** A statement that ends in an exception from every state. *)
Definition never_returns {S A} (m : M S A) : Prop :=
  forall s, exists e, snd (m s) = Raise e.

(* ===================================================================== *)
(** * Properties *)
(* ===================================================================== *)

(** ** Generic facts about [mapR] *)

Lemma mapR_Ok_length {A B} (f : A -> result B) (l : list A) (rs : list B) :
  mapR f l = Ok rs -> length rs = length l.
Proof.
  revert rs. induction l as [|a l IH]; intros rs H; simpl in H.
  - inversion H. reflexivity.
  - destruct (f a) as [b|e]; [|discriminate].
    destruct (mapR f l) as [bs|e]; [|discriminate].
    inversion H; subst. simpl. f_equal. apply IH. reflexivity.
Qed.

Lemma mapR_Ok_lookup {A B} (f : A -> result B) (l : list A) (rs : list B) :
  mapR f l = Ok rs ->
  forall i a, l !! i = Some a -> exists b, rs !! i = Some b /\ f a = Ok b.
Proof.
  revert rs. induction l as [|x l IH]; intros rs H i a Hi; simpl in H.
  - discriminate.
  - destruct (f x) as [b|e] eqn:Hx; [|discriminate].
    destruct (mapR f l) as [bs|e]; [|discriminate].
    inversion H; subst. destruct i as [|i]; simpl in *.
    + inversion Hi; subst. exists b. split; [reflexivity|assumption].
    + apply (IH bs eq_refl i a Hi).
Qed.

Lemma mapR_total {A B} (f : A -> result B) (g : A -> B) (l : list A) :
  (forall a, In a l -> f a = Ok (g a)) -> mapR f l = Ok (map g l).
Proof.
  induction l as [|x l IH]; intros H; simpl.
  - reflexivity.
  - rewrite (H x (or_introl eq_refl)).
    rewrite IH; [reflexivity|]. intros a Ha. apply H. right. assumption.
Qed.

(** ** Padding and truncation *)

Lemma pad_row_pos (L : nat) (s : list nat) :
  0 < L ->
  pad_row L s = Ok (repeat 0 (L - length s) ++ skipn (length s - L) s)%list.
Proof.
  intros HL. unfold pad_row.
  destruct s as [|x s].
  - simpl. rewrite Nat.sub_0_r, app_nil_r. reflexivity.
  - destruct (Nat.eqb_spec L 0) as [->|_]; [lia|].
    rewrite length_skipn.
    replace (L - (length (x :: s) - (length (x :: s) - L)))
      with (L - length (x :: s)) by lia.
    reflexivity.
Qed.

Lemma pad_row_length (L : nat) (s row : list nat) :
  pad_row L s = Ok row -> length row = L.
Proof.
  destruct (Nat.eq_dec L 0) as [->|HL].
  - unfold pad_row. destruct s as [|x s]; simpl.
    + intros H; inversion H; reflexivity.
    + destruct (length s =? 0)%nat; intros H; inversion H; reflexivity.
  - rewrite pad_row_pos by lia. intros H; inversion H; subst.
    rewrite length_app, repeat_length, length_skipn. lia.
Qed.



(** ** The single-sentence path *)

Lemma chars_length (s : string) : length (chars s) = String.length s.
Proof. induction s as [|c s IH]; simpl; [reflexivity|f_equal; exact IH]. Qed.

(** C7.  [tokenize_single_sentence] does not return one sequence of length
    [max_padding_length].  With [max_nb_words = 3], [max_padding_length = 4]
    and the vocabulary of "a a a", "b b", "c", the sentence "a b" gives the
    three rows [0,0,1], [0,0,0], [0,0,2]; and for every preprocessor and
    sentence the result has one row per character of the cleaned sentence,
    each row of length [max_nb_words]. *)
Theorem tokenize_single_sentence_rows :
  tokenize_single_sentence
    (train_tokenizer ["a a a"; "b b"; "c"] [] (init 3 4 false false)) "a b"
  = Ok [[0; 0; 1]; [0; 0; 0]; [0; 0; 2]]
  /\ forall self sentence rows,
       tokenize_single_sentence self sentence = Ok rows ->
       length rows
       = String.length (lower (strip (sub_spaces (sub_nonletter sentence))))
       /\ Forall (fun row => length row = max_nb_words self) rows.
Proof.
  split; [reflexivity|].
  intros self sentence rows H. unfold tokenize_single_sentence in H. split.
  - rewrite (mapR_Ok_length _ _ _ H). unfold texts_to_sequences.
    rewrite length_map. apply chars_length.
  - apply Forall_forall. intros row Hin.
    apply list_elem_of_lookup in Hin as [i Hi].
    pose proof (mapR_Ok_length _ _ _ H) as Hlen.
    destruct (texts_to_sequences (tokenizer self)
                (chars (lower (strip (sub_spaces (sub_nonletter sentence))))) !! i)
      as [s|] eqn:Hs.
    + destruct (mapR_Ok_lookup _ _ _ H i s Hs) as [row' [Hrow' Hpad]].
      rewrite Hi in Hrow'. inversion Hrow'; subst.
      apply (pad_row_length _ _ _ Hpad).
    + apply lookup_ge_None in Hs. apply lookup_lt_Some in Hi. lia.
Qed.

(** ** The spec's sanitization example *)



(** ** The three auxiliary models share one estimator *)

Section SklearnFacts.

Variables Matrix Weights : Type.
Variable ridge_solve : Matrix -> list cell -> Weights.
Variable ridge_predict : Weights -> Matrix -> list cell.

Lemma fit_each_last (ridge : nat) (corpora : list (Matrix * list cell))
    (c : Matrix * list cell) (e : gmap nat (option Weights)) :
  fit_each _ _ ridge_solve ridge (corpora ++ [c])%list e
  = (<[ridge := Some (ridge_solve (fst c) (snd c))]> e,
     Ok (repeat ridge (S (length corpora)))).
Proof.
  revert e. induction corpora as [|d corpora IH]; intros e.
  - reflexivity.
  - change (fit_each _ _ ridge_solve ridge ((d :: corpora) ++ [c])%list e)
      with (bind (fit _ _ ridge_solve ridge (fst d) (snd d))
              (fun model =>
                 bind (fit_each _ _ ridge_solve ridge (corpora ++ [c])%list)
                   (fun models => ret (model :: models))) e).
    unfold bind at 1. unfold fit at 1. unfold bind.
    rewrite IH. rewrite insert_insert_eq. reflexivity.
Qed.

(** C1.  The three calls of [fit] in [main] return one and the same
    estimator, which ends with the weights of the last corpus fitted:
    after them the "toxicity" and the "attack" model predict with the
    weights fitted to the aggression corpus, and fitting the corpora in
    another order leaves the weights of whichever corpus comes last. *)
Theorem fit_models_share_estimator :
  forall (ridge : nat) (X_toxic : Matrix) (y_toxic : list cell)
         (X_attack : Matrix) (y_attack : list cell)
         (X_aggression : Matrix) (y_aggression : list cell)
         (e : gmap nat (option Weights)),
    let e' := <[ridge := Some (ridge_solve X_aggression y_aggression)]> e in
    fit_models _ _ ridge_solve ridge X_toxic y_toxic X_attack y_attack
      X_aggression y_aggression e
    = (e', Ok (ridge, ridge, ridge))
    /\ (forall X, predict _ _ ridge_predict ridge X e'
                  = (e', Ok (ridge_predict (ridge_solve X_aggression y_aggression) X)))
    /\ fst (fit_each _ _ ridge_solve ridge
              [(X_aggression, y_aggression); (X_attack, y_attack);
               (X_toxic, y_toxic)] e)
       = <[ridge := Some (ridge_solve X_toxic y_toxic)]> e.
Proof.
  intros. split; [|split].
  - unfold fit_models, bind, fit, ret. simpl. subst e'.
    rewrite !insert_insert_eq. reflexivity.
  - intros X. unfold predict. subst e'. rewrite lookup_insert_eq. reflexivity.
  - change [(X_aggression, y_aggression); (X_attack, y_attack); (X_toxic, y_toxic)]
      with ([(X_aggression, y_aggression); (X_attack, y_attack)]
            ++ [(X_toxic, y_toxic)])%list.
    rewrite fit_each_last. reflexivity.
Qed.

End SklearnFacts.

(** ** load_and_tokenize without a sample index *)

Lemma never_returns_bind {S A B} (m : M S A) (k : A -> M S B) :
  (forall a, never_returns (k a)) -> never_returns (bind m k).
Proof.
  intros Hk s. unfold bind. destruct (m s) as [s' [a|e]].
  - apply Hk.
  - exists e. reflexivity.
Qed.

Lemma never_returns_bind_ret {S A B} (a : A) (k : A -> M S B) :
  never_returns (k a) -> never_returns (bind (ret a) k).
Proof. intros Hk s. apply Hk. Qed.

Lemma never_returns_raise {S A B} (e : exn) (k : A -> M S B) :
  never_returns (bind (raise e) k).
Proof. intros s. exists e. reflexivity. Qed.

(** C10.  Called with [sample_index = None], [load_and_tokenize] never
    returns a value, whatever the files, the helper [get_sentence], the
    class list and the state: every run ends in an exception. *)
Theorem load_and_tokenize_needs_sample_index :
  forall (files : gmap string DataFrame) (SampleText SampleTarget : Type)
         (get_sentence : nat -> list string -> nat -> M heap (SampleText * SampleTarget))
         (class_list : list string) (st : state),
    exists e,
      snd (load_and_tokenize files SampleText SampleTarget get_sentence
             class_list None st) = Raise e.
Proof.
  intros files SampleText SampleTarget get_sentence class_list st.
  revert st. change (never_returns
    (load_and_tokenize files SampleText SampleTarget get_sentence class_list None)).
  unfold load_and_tokenize.
  repeat first
    [ apply never_returns_raise
    | apply never_returns_bind_ret
    | apply never_returns_bind; intros ?
    | match goal with
      | |- never_returns (if ?b then _ else _) => destruct b
      end ].
Qed.

(** On two small files, with every statement before the [return]
    succeeding, the exception is the unbound local [sample_text]. *)
Example load_and_tokenize_unbound_local :
  snd (load_and_tokenize example_files string (list cell) example_get_sentence
         ["toxic"] None example_state)
  = Raise (UnboundLocalError "sample_text").
Proof. vm_compute. reflexivity. Qed.

(** With a sample index the same call does return. *)
Example load_and_tokenize_with_sample_index :
  snd (load_and_tokenize example_files string (list cell) example_get_sentence
         ["toxic"] (Some 1) example_state)
  = Ok (Plain string (list cell)
          [[0; 1; 2; 3]; [1; 2; 4; 5]] [[Num 0]; [Num 1]] [[0; 0; 2; 1]]
          [("you", 1); ("are", 2); ("great", 3); ("n", 4); ("t", 5)]
          "you are n t" [Num 1]).
Proof. vm_compute. reflexivity. Qed.

(** ** Frames are rewritten in place *)

Lemma bind_Ok_inv {S A B} (m : M S A) (k : A -> M S B) s s' b :
  bind m k s = (s', Ok b) ->
  exists a s1, m s = (s1, Ok a) /\ k a s1 = (s', Ok b).
Proof.
  unfold bind. destruct (m s) as [s1 [a|e]]; intros H.
  - exists a, s1. split; [reflexivity|assumption].
  - discriminate.
Qed.

Lemma assoc_set_assoc_eq {V} (k : string) (v : V) (l : list (string * V)) :
  assoc k (set_assoc k v l) = Some v.
Proof.
  induction l as [|[k' v'] l IH]; simpl.
  - rewrite String.eqb_refl. reflexivity.
  - destruct (String.eqb k k') eqn:E; simpl; rewrite ?String.eqb_refl, ?E; auto.
Qed.

Lemma assoc_set_assoc_ne {V} (k k' : string) (v : V) (l : list (string * V)) :
  k' <> k -> assoc k' (set_assoc k v l) = assoc k' l.
Proof.
  intros Hne. induction l as [|[k0 v0] l IH]; simpl.
  - destruct (String.eqb_spec k' k); [contradiction|reflexivity].
  - destruct (String.eqb_spec k k0) as [->|Hk]; simpl.
    + destruct (String.eqb_spec k' k0); [contradiction|reflexivity].
    + destruct (String.eqb k' k0); [reflexivity|exact IH].
Qed.

Lemma set_assoc_set_assoc {V} (k : string) (v w : V) (l : list (string * V)) :
  set_assoc k w (set_assoc k v l) = set_assoc k w l.
Proof.
  induction l as [|[k' v'] l IH]; simpl.
  - rewrite String.eqb_refl. reflexivity.
  - destruct (String.eqb k k') eqn:E; simpl; rewrite ?String.eqb_refl, ?E.
    + reflexivity.
    + rewrite IH. reflexivity.
Qed.

Lemma set_assoc_id {V} (k : string) (v : V) (l : list (string * V)) :
  assoc k l = Some v -> set_assoc k v l = l.
Proof.
  induction l as [|[k' v'] l IH]; simpl; [discriminate|].
  destruct (String.eqb_spec k k') as [->|Hk]; intros H.
  - inversion H. reflexivity.
  - rewrite IH by assumption. reflexivity.
Qed.

Lemma set_assoc_names {V} (k : string) (v : V) (l : list (string * V)) :
  is_Some (assoc k l) -> map fst (set_assoc k v l) = map fst l.
Proof.
  induction l as [|[k' v'] l IH]; simpl; intros [w H]; [discriminate|].
  destruct (String.eqb_spec k k') as [->|Hk]; simpl.
  - reflexivity.
  - rewrite IH by (exists w; assumption). reflexivity.
Qed.

Lemma col_setitem_eq (n : string) (ys : list cell) (d : DataFrame) :
  col n (setitem n ys d) = Some ys.
Proof. apply assoc_set_assoc_eq. Qed.

Lemma col_setitem_ne (n n' : string) (ys : list cell) (d : DataFrame) :
  n' <> n -> col n' (setitem n ys d) = col n' d.
Proof. apply assoc_set_assoc_ne. Qed.

Lemma setitem_setitem (n : string) (xs ys : list cell) (d : DataFrame) :
  setitem n ys (setitem n xs d) = setitem n ys d.
Proof. unfold setitem. simpl. rewrite set_assoc_set_assoc. reflexivity. Qed.

Lemma setitem_id (n : string) (xs : list cell) (d : DataFrame) :
  col n d = Some xs -> setitem n xs d = d.
Proof.
  intros H. destruct d as [a b c]. unfold setitem, col in *. simpl in *.
  rewrite (set_assoc_id _ _ _ H). reflexivity.
Qed.

Lemma apply_col_Ok (l : nat) (n : string) (f : cell -> result cell)
    (h : heap) (d : DataFrame) (xs ys : list cell) :
  h !! l = Some d -> col n d = Some xs -> mapR f xs = Ok ys ->
  apply_col l n f h = (<[l := setitem n ys d]> h, Ok tt).
Proof.
  intros Hl Hc Hf. unfold apply_col, bind, read_frame, lift_result, getitem, write_frame.
  rewrite Hl, Hc, Hf. reflexivity.
Qed.

Lemma apply_col_Raise (l : nat) (n : string) (f : cell -> result cell)
    (h : heap) (d : DataFrame) (xs : list cell) (e : exn) :
  h !! l = Some d -> col n d = Some xs -> mapR f xs = Raise e ->
  apply_col l n f h = (h, Raise e).
Proof.
  intros Hl Hc Hf. unfold apply_col, bind, read_frame, lift_result, getitem.
  rewrite Hl, Hc, Hf. reflexivity.
Qed.

Lemma apply_col_KeyError (l : nat) (n : string) (f : cell -> result cell)
    (h : heap) (d : DataFrame) :
  h !! l = Some d -> col n d = None ->
  apply_col l n f h = (h, Raise (KeyError n)).
Proof.
  intros Hl Hc. unfold apply_col, bind, read_frame, lift_result, getitem.
  rewrite Hl, Hc. reflexivity.
Qed.

Lemma seq_apply_Ok {A} (l : nat) (n : string) (k : M heap A)
    (fs : list (cell -> result cell)) :
  forall (h : heap) (d : DataFrame) (xs ys : list cell),
    h !! l = Some d -> col n d = Some xs -> run_steps fs xs = Ok ys ->
    seq_apply l n fs k h = k (<[l := setitem n ys d]> h).
Proof.
  induction fs as [|f fs IH]; intros h d xs ys Hl Hc Hr; simpl in *.
  - inversion Hr; subst. rewrite (setitem_id _ _ _ Hc).
    rewrite (insert_id _ _ _ Hl). reflexivity.
  - destruct (mapR f xs) as [y1|e] eqn:Hf; [|discriminate]. simpl in Hr.
    unfold bind at 1. rewrite (apply_col_Ok _ _ _ _ _ _ _ Hl Hc Hf).
    rewrite (IH _ (setitem n y1 d) y1 ys).
    + rewrite insert_insert_eq, setitem_setitem. reflexivity.
    + apply lookup_insert_eq.
    + apply col_setitem_eq.
    + assumption.
Qed.

Lemma seq_apply_Raise {A} (l : nat) (n : string) (k : M heap A)
    (fs : list (cell -> result cell)) :
  forall (h : heap) (d : DataFrame) (xs : list cell) (e : exn),
    h !! l = Some d -> col n d = Some xs -> run_steps fs xs = Raise e ->
    exists h', seq_apply l n fs k h = (h', Raise e).
Proof.
  induction fs as [|f fs IH]; intros h d xs e Hl Hc Hr; simpl in *.
  - discriminate.
  - destruct (mapR f xs) as [y1|e1] eqn:Hf; simpl in Hr.
    + unfold bind at 1. rewrite (apply_col_Ok _ _ _ _ _ _ _ Hl Hc Hf).
      apply (IH _ (setitem n y1 d) y1 e).
      * apply lookup_insert_eq.
      * apply col_setitem_eq.
      * assumption.
    + inversion Hr; subst. exists h.
      unfold bind at 1. rewrite (apply_col_Raise _ _ _ _ _ _ _ Hl Hc Hf).
      reflexivity.
Qed.
Lemma seq_apply_KeyError {A} (l : nat) (n : string) (k : M heap A)
    (f : cell -> result cell) (fs : list (cell -> result cell))
    (h : heap) (d : DataFrame) :
  h !! l = Some d -> col n d = None ->
  seq_apply l n (f :: fs) k h = (h, Raise (KeyError n)).
Proof.
  intros Hl Hc. simpl. unfold bind at 1.
  rewrite (apply_col_KeyError _ _ _ _ _ Hl Hc). reflexivity.
Qed.

Lemma mapR_fillna (xs : list cell) : mapR fillna xs = Ok (map fill xs).
Proof. apply mapR_total. reflexivity. Qed.

Lemma mapR_on_text (e : exn) (f : string -> string) (ss : list string) :
  mapR (on_text e f) (map Str ss) = Ok (map Str (map f ss)).
Proof.
  induction ss as [|s ss IH]; simpl; [reflexivity|]. rewrite IH. reflexivity.
Qed.

Lemma fill_textual (xs : list cell) :
  forallb textual xs = true ->
  map fill xs = map Str (map (fun x => fillna_unk (text_of x)) xs).
Proof.
  induction xs as [|x xs IH]; simpl; [reflexivity|].
  intros H. apply andb_prop in H as [Hx Hxs].
  rewrite IH by assumption. destruct x; try discriminate; reflexivity.
Qed.

Lemma mapR_on_text_number (e : exn) (f : string -> string) (xs : list cell) :
  forallb textual xs = false -> mapR (on_text e f) (map fill xs) = Raise e.
Proof.
  induction xs as [|x xs IH]; simpl; [discriminate|].
  intros H. destruct x; simpl in *; try reflexivity;
    rewrite IH by assumption; reflexivity.
Qed.

Lemma run_Sanitize_steps (xs : list cell) :
  run_steps Sanitize_steps xs
  = if forallb textual xs then Ok (map sanitized xs) else Raise AttributeError.
Proof.
  unfold Sanitize_steps. cbn [run_steps]. rewrite mapR_fillna. cbn [rbind].
  destruct (forallb textual xs) eqn:Ht.
  - rewrite (fill_textual _ Ht).
    repeat (rewrite mapR_on_text; cbn [rbind]).
    rewrite !map_map. reflexivity.
  - rewrite (mapR_on_text_number _ _ _ Ht). reflexivity.
Qed.

Lemma run_text_normalization_steps (xs : list cell) :
  run_steps text_normalization_steps xs
  = if forallb textual xs then Ok (map normalized xs) else Raise TypeError.
Proof.
  unfold text_normalization_steps. cbn [run_steps]. rewrite mapR_fillna. cbn [rbind].
  destruct (forallb textual xs) eqn:Ht.
  - rewrite (fill_textual _ Ht).
    repeat (rewrite mapR_on_text; cbn [rbind]).
    rewrite !map_map. reflexivity.
  - rewrite (mapR_on_text_number _ _ _ Ht). reflexivity.
Qed.

Lemma Sanitize_unfold (l : nat) (h : heap) :
  Sanitize l h
  = bind (read_frame l)
      (fun d => seq_apply l (comment_column d) Sanitize_steps (ret l)) h.
Proof. reflexivity. Qed.

(** What a run of [Sanitize] is, case by case. *)
Lemma Sanitize_cases (l : nat) (h : heap) :
  match h !! l with
  | None => Sanitize l h = (h, Raise ReferenceError)
  | Some d =>
      match col (comment_column d) d with
      | None => Sanitize l h = (h, Raise (KeyError (comment_column d)))
      | Some xs =>
          if forallb textual xs
          then Sanitize l h
               = (<[l := setitem (comment_column d) (map sanitized xs) d]> h, Ok l)
          else exists h', Sanitize l h = (h', Raise AttributeError)
      end
  end.
Proof.
  destruct (h !! l) as [d|] eqn:Hl.
  - assert (Sanitize l h
            = seq_apply l (comment_column d) Sanitize_steps (ret l) h) as ->.
    { rewrite Sanitize_unfold. unfold bind at 1, read_frame. rewrite Hl.
      reflexivity. }
    destruct (col (comment_column d) d) as [xs|] eqn:Hc.
    + pose proof (run_Sanitize_steps xs) as Hr.
      destruct (forallb textual xs).
      * rewrite (seq_apply_Ok _ _ _ _ _ _ _ _ Hl Hc Hr). reflexivity.
      * apply (seq_apply_Raise _ _ _ _ _ _ _ _ Hl Hc Hr).
    + apply (seq_apply_KeyError _ _ _ _ _ _ _ Hl Hc).
  - rewrite Sanitize_unfold. unfold bind at 1, read_frame. rewrite Hl.
    reflexivity.
Qed.

Lemma bind_ret_unit {S} (m : M S unit) (s : S) :
  bind m (fun _ => ret tt) s = m s.
Proof. unfold bind, ret. destruct (m s) as [s' [[]|e]]; reflexivity. Qed.

Lemma seq_apply_ext {A} (l : nat) (n : string) (k k' : M heap A)
    (fs : list (cell -> result cell)) :
  (forall h, k h = k' h) -> forall h, seq_apply l n fs k h = seq_apply l n fs k' h.
Proof.
  intros Hk. induction fs as [|f fs IH]; intros h; simpl.
  - apply Hk.
  - unfold bind. destruct (apply_col l n f h) as [h1 [u|e]]; [apply IH|reflexivity].
Qed.

Lemma text_normalization_unfold (l : nat) (h : heap) :
  text_normalization l h
  = seq_apply l "comment_text" text_normalization_steps (ret tt) h.
Proof.
  unfold text_normalization_steps.
  change (text_normalization l h)
    with (seq_apply l "comment_text"
            [fillna; on_text TypeError sub_nonletter;
             on_text TypeError (fun x => strip (sub_spaces x));
             on_text AttributeError (replace "http" EmptyString)]
            (apply_col l "comment_text" (on_text AttributeError lower)) h).
  change (seq_apply l "comment_text"
            [fillna; on_text TypeError sub_nonletter;
             on_text TypeError (fun x => strip (sub_spaces x));
             on_text AttributeError (replace "http" EmptyString);
             on_text AttributeError lower] (ret tt) h)
    with (seq_apply l "comment_text"
            [fillna; on_text TypeError sub_nonletter;
             on_text TypeError (fun x => strip (sub_spaces x));
             on_text AttributeError (replace "http" EmptyString)]
            (bind (apply_col l "comment_text" (on_text AttributeError lower))
                  (fun _ => ret tt)) h).
  apply seq_apply_ext. intros h0. symmetry. apply bind_ret_unit.
Qed.

(** What a run of [text_normalization] is, case by case. *)
Lemma text_normalization_cases (l : nat) (h : heap) :
  match h !! l with
  | None => text_normalization l h = (h, Raise ReferenceError)
  | Some d =>
      match col "comment_text" d with
      | None => text_normalization l h = (h, Raise (KeyError "comment_text"))
      | Some xs =>
          if forallb textual xs
          then text_normalization l h
               = (<[l := setitem "comment_text" (map normalized xs) d]> h, Ok tt)
          else exists h', text_normalization l h = (h', Raise TypeError)
      end
  end.
Proof.
  rewrite text_normalization_unfold.
  destruct (h !! l) as [d|] eqn:Hl.
  - destruct (col "comment_text" d) as [xs|] eqn:Hc.
    + pose proof (run_text_normalization_steps xs) as Hr.
      destruct (forallb textual xs).
      * rewrite (seq_apply_Ok _ _ _ _ _ _ _ _ Hl Hc Hr). reflexivity.
      * apply (seq_apply_Raise _ _ _ _ _ _ _ _ Hl Hc Hr).
    + apply (seq_apply_KeyError _ _ _ _ _ _ _ Hl Hc).
  - unfold text_normalization_steps. simpl. unfold bind at 1, apply_col at 1.
    unfold bind at 1, read_frame. rewrite Hl. reflexivity.
Qed.

Lemma setitem_rewrites_column (f : cell -> cell) (n : string) (d : DataFrame)
    (xs : list cell) :
  col n d = Some xs -> rewrites_column f n d (setitem n (map f xs) d).
Proof.
  intros Hc. unfold rewrites_column. repeat split.
  - unfold setitem. simpl. apply set_assoc_names. exists xs. exact Hc.
  - exists xs. split; [exact Hc|apply col_setitem_eq].
  - intros n' Hn. apply col_setitem_ne. exact Hn.
Qed.

(** C9, as stated: the table the caller passes is not left as it was. *)
Lemma sanitization_mutates_input :
  fst (Sanitize 0 (one_comment "comment")) !! 0%nat
    <> one_comment "comment" !! 0%nat
  /\ fst (text_normalization 0 (one_comment "comment_text")) !! 0%nat
    <> one_comment "comment_text" !! 0%nat.
Proof. split; intros H; vm_compute in H; discriminate. Qed.

(** C9, amended.  Sanitization rewrites the caller's table in place.  When
    [Sanitize] returns, it returns the very frame it was given, and when
    [text_normalization] returns, it returns nothing; in both cases the
    frame's text column holds the sanitized text of every row, in the
    same row order, while the row labels, the names and order of the
    columns, every other column and every other frame are unchanged. *)
Theorem sanitization_rewrites_in_place :
  forall (df : nat) (h : heap),
    (forall h' r, Sanitize df h = (h', Ok r) ->
       r = df /\
       exists d d', h !! df = Some d /\ h' !! df = Some d' /\
         rewrites_column sanitized (comment_column d) d d' /\
         forall l, l <> df -> h' !! l = h !! l)
    /\
    (forall h' u, text_normalization df h = (h', Ok u) ->
       exists d d', h !! df = Some d /\ h' !! df = Some d' /\
         rewrites_column normalized "comment_text" d d' /\
         forall l, l <> df -> h' !! l = h !! l).
Proof.
  intros df h. split.
  - intros h' r H. pose proof (Sanitize_cases df h) as Hc.
    destruct (h !! df) as [d|] eqn:Hl; [|rewrite Hc in H; discriminate].
    destruct (col (comment_column d) d) as [xs|] eqn:Hx;
      [|rewrite Hc in H; discriminate].
    destruct (forallb textual xs);
      [|destruct Hc as [h0 Hc]; rewrite Hc in H; discriminate].
    rewrite Hc in H. inversion H; subst. split; [reflexivity|].
    exists d, (setitem (comment_column d) (map sanitized xs) d).
    split; [reflexivity|]. split; [apply lookup_insert_eq|].
    split; [apply setitem_rewrites_column; exact Hx|].
    intros l Hne. apply lookup_insert_ne. congruence.
  - intros h' u H. pose proof (text_normalization_cases df h) as Hc.
    destruct (h !! df) as [d|] eqn:Hl; [|rewrite Hc in H; discriminate].
    destruct (col "comment_text" d) as [xs|] eqn:Hx;
      [|rewrite Hc in H; discriminate].
    destruct (forallb textual xs);
      [|destruct Hc as [h0 Hc]; rewrite Hc in H; discriminate].
    rewrite Hc in H. inversion H; subst.
    exists d, (setitem "comment_text" (map normalized xs) d).
    split; [reflexivity|]. split; [apply lookup_insert_eq|].
    split; [apply setitem_rewrites_column; exact Hx|].
    intros l Hne. apply lookup_insert_ne. congruence.
Qed.

(** Both functions do return on a table of text. *)
Example sanitization_returns :
  Sanitize 0 (one_comment "comment")
  = ({[ 0%nat := mkDF None [Num 0] [("comment", [Str "a"])] ]}, Ok 0%nat)
  /\ text_normalization 0 (one_comment "comment_text")
  = ({[ 0%nat := mkDF None [Num 0] [("comment_text", [Str "a"])] ]}, Ok tt).
Proof. split; vm_compute; reflexivity. Qed.

(** ** The aggregator: grouping, means and the left join *)

Lemma cell_eqb_sym (a b : cell) : cell_eqb a b = cell_eqb b a.
Proof.
  destruct a as [|p|s], b as [|q|t]; simpl; try reflexivity.
  - destruct (Qeq_bool p q) eqn:E1, (Qeq_bool q p) eqn:E2; try reflexivity.
    + apply Qeq_bool_iff in E1. symmetry in E1. apply Qeq_bool_iff in E1. congruence.
    + apply Qeq_bool_iff in E2. symmetry in E2. apply Qeq_bool_iff in E2. congruence.
  - apply String.eqb_sym.
Qed.

Lemma cell_eqb_trans (a b c : cell) :
  cell_eqb a b = true -> cell_eqb b c = true -> cell_eqb a c = true.
Proof.
  destruct a as [|p|s], b as [|q|t], c as [|r|u]; simpl; try discriminate.
  - intros H1 H2. apply Qeq_bool_iff in H1, H2. apply Qeq_bool_iff.
    rewrite H1. exact H2.
  - intros H1 H2. apply String.eqb_eq in H1, H2. apply String.eqb_eq. congruence.
Qed.

(** Labels that are equal carry the same rows. *)
Lemma cell_eqb_equiv (a b c : cell) :
  cell_eqb a b = true -> cell_eqb a c = cell_eqb b c.
Proof.
  intros Hab. destruct (cell_eqb b c) eqn:Hbc.
  - apply (cell_eqb_trans _ _ _ Hab Hbc).
  - destruct (cell_eqb a c) eqn:Hac; [|reflexivity].
    rewrite cell_eqb_sym in Hab.
    rewrite (cell_eqb_trans _ _ _ Hab Hac) in Hbc. discriminate.
Qed.

Lemma count_label_cons (id x : cell) (l : list cell) :
  count_label id (x :: l)
  = (if cell_eqb id x then 1 else 0) + count_label id l.
Proof. unfold count_label. simpl. destruct (cell_eqb id x); reflexivity. Qed.

Lemma count_label_app (id : cell) (l1 l2 : list cell) :
  count_label id (l1 ++ l2)%list = count_label id l1 + count_label id l2.
Proof. unfold count_label. rewrite List.filter_app, length_app. reflexivity. Qed.

Lemma count_label_repeat (id x : cell) (m : nat) :
  count_label id (repeat x m) = if cell_eqb id x then m else 0.
Proof.
  induction m as [|m IH]; simpl.
  - destruct (cell_eqb id x); reflexivity.
  - change (repeat x m) with (repeat x m) in *.
    rewrite count_label_cons, IH. destruct (cell_eqb id x); reflexivity.
Qed.

Lemma count_label_exists (id : cell) (l : list cell) :
  existsb (cell_eqb id) l = negb (count_label id l =? 0)%nat.
Proof.
  induction l as [|x l IH]; [reflexivity|].
  rewrite count_label_cons. simpl. rewrite IH.
  destruct (cell_eqb id x); simpl; reflexivity.
Qed.

Lemma count_label_filter_other (id x : cell) (l : list cell) :
  cell_eqb id x = false ->
  count_label id (List.filter (fun y => negb (cell_eqb x y)) l) = count_label id l.
Proof.
  intros Hx. induction l as [|y l IH]; [reflexivity|].
  rewrite count_label_cons. cbn [List.filter].
  destruct (cell_eqb x y) eqn:Hxy; cbn [negb].
  - rewrite IH. destruct (cell_eqb id y) eqn:Hy; [|reflexivity].
    rewrite cell_eqb_sym in Hxy.
    rewrite (cell_eqb_trans _ _ _ Hy Hxy) in Hx. discriminate.
  - rewrite count_label_cons, IH. reflexivity.
Qed.

Lemma count_label_filter_same (id x : cell) (l : list cell) :
  cell_eqb id x = true ->
  count_label id (List.filter (fun y => negb (cell_eqb x y)) l) = 0.
Proof.
  intros Hx. induction l as [|y l IH]; [reflexivity|].
  cbn [List.filter]. destruct (cell_eqb x y) eqn:Hxy; cbn [negb].
  - exact IH.
  - rewrite count_label_cons, IH.
    rewrite (cell_eqb_equiv _ _ y Hx), Hxy. reflexivity.
Qed.

Lemma count_label_dedup (id : cell) (l : list cell) :
  count_label id (dedup l) = if existsb (cell_eqb id) l then 1 else 0.
Proof.
  induction l as [|x l IH]; [reflexivity|].
  cbn [dedup existsb]. rewrite count_label_cons.
  destruct (cell_eqb id x) eqn:Hx; cbn [orb].
  - rewrite count_label_filter_same by assumption. reflexivity.
  - rewrite count_label_filter_other by assumption. exact IH.
Qed.

Lemma count_label_insert_sorted (id x : cell) (l : list cell) :
  count_label id (insert_sorted x l) = count_label id (x :: l).
Proof.
  induction l as [|y l IH]; [reflexivity|].
  cbn [insert_sorted]. destruct (cell_leb x y); [reflexivity|].
  rewrite count_label_cons, IH, !count_label_cons. lia.
Qed.

Lemma count_label_sort_cells (id : cell) (l : list cell) :
  count_label id (sort_cells l) = count_label id l.
Proof.
  induction l as [|x l IH]; [reflexivity|].
  cbn [sort_cells fold_right]. rewrite count_label_insert_sorted.
  rewrite !count_label_cons. unfold sort_cells in IH. rewrite IH. reflexivity.
Qed.

Lemma existsb_filter_notnan (id : cell) (l : list cell) :
  existsb (cell_eqb id) (List.filter notnan l) = existsb (cell_eqb id) l.
Proof.
  induction l as [|x l IH]; [reflexivity|].
  cbn [List.filter]. destruct x; cbn [notnan existsb]; rewrite IH; try reflexivity.
  destruct id; reflexivity.
Qed.

(** Every label of the key column heads exactly one group. *)
Lemma count_label_group_keys (id : cell) (keys : list cell) :
  count_label id (group_keys keys) = if existsb (cell_eqb id) keys then 1 else 0.
Proof.
  unfold group_keys. rewrite count_label_sort_cells, count_label_dedup.
  rewrite existsb_filter_notnan. reflexivity.
Qed.

Lemma positions_from_length (s : nat) (k : cell) (idx : list cell) :
  length (positions_from s k idx) = count_label k idx.
Proof.
  revert s. induction idx as [|y idx IH]; intros s; [reflexivity|].
  cbn [positions_from]. rewrite count_label_cons.
  destruct (cell_eqb k y); cbn [length]; rewrite IH; reflexivity.
Qed.

Lemma positions_from_lookup (s : nat) (k : cell) (idx : list cell) (j : nat) :
  In j (positions_from s k idx) ->
  s <= j /\ exists y, idx !! (j - s) = Some y /\ cell_eqb k y = true.
Proof.
  revert s. induction idx as [|y idx IH]; intros s; [intros []|].
  cbn [positions_from]. destruct (cell_eqb k y) eqn:Hy.
  - intros [<-|Hin].
    + split; [lia|]. exists y. rewrite Nat.sub_diag. split; [reflexivity|exact Hy].
    + destruct (IH _ Hin) as [Hle [z [Hz Hk]]]. split; [lia|].
      exists z. replace (j - s) with (S (j - S s)) by lia. split; assumption.
  - intros Hin. destruct (IH _ Hin) as [Hle [z [Hz Hk]]]. split; [lia|].
    exists z. replace (j - s) with (S (j - S s)) by lia. split; assumption.
Qed.

(** A left row whose label is a key of the annotation table has exactly
    one partner among the groups, and the partner carries its label. *)
Lemma partners_group_keys (k : cell) (keys : list cell) :
  existsb (cell_eqb k) keys = true ->
  exists j y, partners (group_keys keys) k = [Some j]
              /\ group_keys keys !! j = Some y /\ cell_eqb k y = true.
Proof.
  intros Hk. unfold partners.
  pose proof (positions_from_length 0 k (group_keys keys)) as Hlen.
  rewrite count_label_group_keys, Hk in Hlen.
  pose proof (positions_from_lookup 0 k (group_keys keys)) as Hin.
  unfold positions. destruct (positions_from 0 k (group_keys keys)) as [|j [|j' ps]];
    try discriminate.
  destruct (Hin j (or_introl eq_refl)) as [_ [y [Hy Hky]]].
  rewrite Nat.sub_0_r in Hy. exists j, y. repeat split; assumption.
Qed.

Lemma existsb_pointwise {A} (f g : A -> bool) (l : list A) :
  (forall x, f x = g x) -> existsb f l = existsb g l.
Proof.
  intros H. induction l as [|x l IH]; [reflexivity|]. simpl.
  rewrite H, IH. reflexivity.
Qed.

Lemma join_left_labels (id : cell) (keys lidx : list cell) :
  existsb (cell_eqb id) keys = true ->
  count_label id (join_left lidx (group_keys keys) lidx) = count_label id lidx.
Proof.
  intros Hid. unfold join_left.
  induction lidx as [|k lidx IH]; [reflexivity|].
  cbn [combine flat_map fst snd].
  rewrite count_label_app, count_label_repeat, count_label_cons, IH.
  destruct (cell_eqb id k) eqn:Hk; [|reflexivity].
  assert (existsb (cell_eqb k) keys = true) as Hkeys.
  { rewrite <- Hid. apply existsb_pointwise. intros z. symmetry.
    apply cell_eqb_equiv. exact Hk. }
  destruct (partners_group_keys _ _ Hkeys) as [j [y [-> _]]]. reflexivity.
Qed.

Lemma join_left_right_length (lidx ridx xs ys : list cell) :
  length xs = length lidx ->
  length (join_right lidx ridx ys) = length (join_left lidx ridx xs).
Proof.
  unfold join_left, join_right. revert xs.
  induction lidx as [|k lidx IH]; intros xs Hlen.
  - reflexivity.
  - destruct xs as [|x xs]; [discriminate|].
    cbn [combine flat_map fst snd].
    rewrite !length_app, length_map, repeat_length. f_equal.
    apply IH. simpl in Hlen. lia.
Qed.

(** Row by row, a joined right column holds the value of a partner of
    the row's label. *)
Lemma join_rows (lidx ridx ys : list cell) :
  forall i lab v,
    join_left lidx ridx lidx !! i = Some lab ->
    join_right lidx ridx ys !! i = Some v ->
    exists o, In o (partners ridx lab)
              /\ v = match o with Some j => nth j ys NaN | None => NaN end.
Proof.
  unfold join_left, join_right.
  induction lidx as [|k lidx IH]; intros i lab v Hl Hr; [discriminate|].
  cbn [combine flat_map fst snd] in Hl, Hr.
  destruct (Nat.lt_ge_cases i (length (partners ridx k))) as [Hi|Hi].
  - rewrite lookup_app_l in Hl by (rewrite repeat_length; exact Hi).
    rewrite lookup_app_l in Hr by (rewrite length_map; exact Hi).
    apply list_elem_of_lookup_2, list_elem_of_In, repeat_spec in Hl. subst lab.
    apply list_elem_of_lookup_2, list_elem_of_In, in_map_iff in Hr.
    destruct Hr as [o [Hv Ho]]. exists o. split; [exact Ho|symmetry; exact Hv].
  - rewrite lookup_app_r in Hl by (rewrite repeat_length; exact Hi).
    rewrite lookup_app_r in Hr by (rewrite length_map; exact Hi).
    rewrite repeat_length in Hl. rewrite length_map in Hr.
    apply (IH _ _ _ Hl Hr).
Qed.

Lemma assoc_app {V} (n : string) (l1 l2 : list (string * V)) :
  assoc n (l1 ++ l2)%list
  = match assoc n l1 with Some v => Some v | None => assoc n l2 end.
Proof.
  induction l1 as [|[k v] l1 IH]; [reflexivity|]. simpl.
  destruct (String.eqb n k); [reflexivity|exact IH].
Qed.

Lemma assoc_map_snd {V W} (f : V -> W) (n : string) (l : list (string * V)) :
  assoc n (map (fun c => (fst c, f (snd c))) l) = option_map f (assoc n l).
Proof.
  induction l as [|[k v] l IH]; [reflexivity|]. simpl.
  destruct (String.eqb n k); [reflexivity|exact IH].
Qed.

Lemma assoc_filter {V} (P : string * V -> bool) (n : string) (v : V)
    (l : list (string * V)) :
  assoc n l = Some v -> P (n, v) = true -> assoc n (List.filter P l) = Some v.
Proof.
  intros Ha HP. induction l as [|[k w] l IH]; [discriminate|].
  simpl in Ha. cbn [List.filter].
  destruct (String.eqb_spec n k) as [->|Hk].
  - inversion Ha; subst. rewrite HP. simpl. rewrite String.eqb_refl. reflexivity.
  - destruct (P (k, w)); [|apply IH; exact Ha].
    simpl. destruct (String.eqb_spec n k); [contradiction|apply IH; exact Ha].
Qed.


Lemma overlap_false (l r : DataFrame) (n : string) :
  overlap l r = false -> has_col n r = true -> col n l = None.
Proof.
  unfold overlap, col. intros Ho Hr.
  induction (columns l) as [|[k v] cs IH]; [reflexivity|].
  cbn [existsb fst] in Ho. apply orb_false_iff in Ho as [Hk Hcs].
  simpl. destruct (String.eqb_spec n k) as [->|Hne]; [congruence|].
  apply IH. exact Hcs.
Qed.

Lemma nums_length (xs : list cell) :
  forallb is_num xs = true -> length (nums xs) = length xs.
Proof.
  induction xs as [|x xs IH]; [reflexivity|]. simpl.
  intros H. apply andb_prop in H as [Hx Hxs].
  destruct x; try discriminate. simpl. f_equal. apply IH. exact Hxs.
Qed.

Lemma group_values_length (k : cell) (keys vals : list cell) :
  length vals = length keys ->
  length (group_values keys k vals) = count_label k keys.
Proof.
  unfold group_values. revert vals.
  induction keys as [|y keys IH]; intros vals Hlen; [reflexivity|].
  destruct vals as [|x vals]; [discriminate|].
  rewrite count_label_cons. cbn [combine List.filter fst].
  destruct (cell_eqb k y); cbn [map length]; rewrite IH by (simpl in Hlen; lia);
    reflexivity.
Qed.

Lemma group_values_num (k : cell) (keys vals : list cell) :
  forallb is_num vals = true -> forallb is_num (group_values keys k vals) = true.
Proof.
  unfold group_values. revert vals.
  induction keys as [|y keys IH]; intros vals H; [reflexivity|].
  destruct vals as [|x vals]; [reflexivity|].
  simpl in H. apply andb_prop in H as [Hx Hxs].
  cbn [combine List.filter fst]. destruct (cell_eqb k y); cbn [map forallb snd].
  - rewrite Hx. apply IH. exact Hxs.
  - apply IH. exact Hxs.
Qed.

Lemma group_values_equiv (a b : cell) (keys vals : list cell) :
  cell_eqb a b = true -> group_values keys a vals = group_values keys b vals.
Proof.
  intros Hab. unfold group_values. f_equal. apply filter_ext.
  intros p. apply cell_eqb_equiv. exact Hab.
Qed.

Lemma is_num_numeric (xs : list cell) :
  forallb is_num xs = true -> is_numeric xs = true.
Proof.
  unfold is_numeric. induction xs as [|x xs IH]; [reflexivity|]. simpl.
  intros H. apply andb_prop in H as [Hx Hxs].
  rewrite (IH Hxs). destruct x; try discriminate; reflexivity.
Qed.

(** The mean of the annotation values of a key that occurs. *)
Lemma mean_cell_annotation_values (id : cell) (keys vals : list cell) :
  existsb (cell_eqb id) keys = true ->
  length vals = length keys ->
  forallb is_num vals = true ->
  length (annotation_values id keys vals) = count_label id keys
  /\ exists m, mean_cell (group_values keys id vals) = Num m
               /\ Qeq m (Qsum (annotation_values id keys vals)
                         / inject_Z (Z.of_nat (count_label id keys))).
Proof.
  intros Hid Hlen Hnum. unfold annotation_values.
  assert (length (nums (group_values keys id vals)) = count_label id keys) as Hk.
  { rewrite nums_length by (apply group_values_num; exact Hnum).
    apply group_values_length. exact Hlen. }
  split; [exact Hk|].
  unfold mean_cell. rewrite count_label_exists in Hid.
  destruct (nums (group_values keys id vals)) as [|q qs] eqn:Hq.
  - simpl in Hk. rewrite <- Hk in Hid. discriminate.
  - eexists. split; [reflexivity|]. rewrite Qred_correct, Hk. reflexivity.
Qed.

Lemma index_setitem (n : string) (ys : list cell) (d : DataFrame) :
  index (setitem n ys d) = index d.
Proof. reflexivity. Qed.

Lemma Ok_inj {A} (x y : A) : Ok x = Ok y -> x = y.
Proof. intros H. injection H as H. exact H. Qed.

(** The labels and the right columns of a join. *)
Lemma join_Ok (l r j : DataFrame) :
  join l r = Ok j ->
  index j = join_left (index l) (index r) (index l)
  /\ forall n ys, col n r = Some ys ->
                  col n j = Some (join_right (index l) (index r) ys).
Proof.
  unfold join. destruct (overlap l r) eqn:Hov; [discriminate|].
  intros H. apply Ok_inj in H. subst j. split; [reflexivity|].
  intros n ys Hn.
  assert (col n l = None) as Hl
    by (apply (overlap_false _ _ n Hov); unfold has_col; rewrite Hn; reflexivity).
  unfold col in *. cbn [columns].
  rewrite assoc_app, (assoc_map_snd (join_left (index l) (index r))), Hl.
  cbn [option_map].
  rewrite (assoc_map_snd (join_right (index l) (index r))), Hn. reflexivity.
Qed.

Lemma JoinAndSanitize_run (cmt annot : nat) (h : heap) (c a : DataFrame) :
  h !! cmt = Some c -> h !! annot = Some a ->
  JoinAndSanitize cmt annot h
  = match set_index "rev_id" c with
    | Raise e => (h, Raise e)
    | Ok ci =>
        match groupby_mean "rev_id" a with
        | Raise e => (h, Raise e)
        | Ok g =>
            match join ci g with
            | Raise e => (h, Raise e)
            | Ok j => bind (Sanitize (fresh (dom h))) ret (<[fresh (dom h) := j]> h)
            end
        end
    end.
Proof.
  intros Hc Ha. unfold JoinAndSanitize.
  unfold bind at 1, read_frame at 1. rewrite Hc.
  unfold bind at 1, read_frame at 1. rewrite Ha.
  unfold bind at 1, lift_result at 1. destruct (set_index "rev_id" c) as [ci|e]; [|reflexivity].
  unfold bind at 1, lift_result at 1. destruct (groupby_mean "rev_id" a) as [g|e]; [|reflexivity].
  unfold bind at 1, lift_result at 1. destruct (join ci g) as [j|e]; [|reflexivity].
  reflexivity.
Qed.

(** The table that [JoinAndSanitize] returns, when it returns. *)
Lemma JoinAndSanitize_Ok (cmt annot : nat) (h h' : heap) (c a : DataFrame) (l : nat) :
  h !! cmt = Some c -> h !! annot = Some a ->
  JoinAndSanitize cmt annot h = (h', Ok l) ->
  exists ids keys j xs,
    col "rev_id" c = Some ids /\ col "rev_id" a = Some keys
    /\ join (mkDF (Some "rev_id") ids
               (List.filter (fun c => negb (String.eqb "rev_id" (fst c))) (columns c)))
            (mkDF (Some "rev_id") (group_keys keys)
               (map (fun c => (fst c,
                               map (fun k => mean_cell (group_values keys k (snd c)))
                                   (group_keys keys)))
                  (List.filter (fun c => negb (String.eqb "rev_id" (fst c))
                                         && is_numeric (snd c)) (columns a))))
       = Ok j
    /\ col (comment_column j) j = Some xs
    /\ forallb textual xs = true
    /\ l = fresh (dom h)
    /\ h' = <[l := setitem (comment_column j) (map sanitized xs) j]> (<[l := j]> h).
Proof.
  intros Hc Ha H. rewrite (JoinAndSanitize_run _ _ _ _ _ Hc Ha) in H.
  unfold set_index in H. destruct (col "rev_id" c) as [ids|]; [|discriminate].
  unfold groupby_mean in H. destruct (col "rev_id" a) as [keys|]; [|discriminate].
  destruct (join _ _) as [j|e] eqn:Hj; [|discriminate].
  apply bind_Ok_inv in H as [r [h1 [HS Hret]]].
  inversion Hret; subst. clear Hret.
  pose proof (Sanitize_cases (fresh (dom h)) (<[fresh (dom h) := j]> h)) as Hcases.
  rewrite lookup_insert_eq in Hcases.
  destruct (col (comment_column j) j) as [xs|] eqn:Hx;
    [|rewrite Hcases in HS; discriminate].
  destruct (forallb textual xs) eqn:Ht;
    [|destruct Hcases as [h0 Hcases]; rewrite Hcases in HS; discriminate].
  rewrite Hcases in HS. inversion HS; subst.
  exists ids, keys, j, xs. repeat split; auto.
Qed.

(** C5, as stated: an id of the annotation table that no comment carries
    has no row in the output, and an id that two comments carry has two. *)
Lemma aggregator_rows_refuted :
  exists out,
    snd (JoinAndSanitize 0 1 example_tables) = Ok 2%nat
    /\ fst (JoinAndSanitize 0 1 example_tables) !! 2%nat = Some out
    /\ existsb (cell_eqb (Num 12)) [Num 12; Num 10; Num 10] = true
    /\ count_label (Num 12) (index out) = 0
    /\ count_label (Num 10) (index out) = 2.
Proof. vm_compute. eexists. repeat split. Qed.

(** C5, amended.  When the Aggregator returns, then for every id that
    occurs in the key column of the annotation table (k >= 1 times) the
    output has as many rows labelled with the id as the comment table has
    rows with it, and in each such row every column of the annotation
    table that holds numbers only holds the arithmetic mean of the k
    annotation values of the id. *)
Theorem aggregator_means :
  forall (cmt annot : nat) (h h' : heap) (c a : DataFrame) (l : nat),
    h !! cmt = Some c -> h !! annot = Some a ->
    JoinAndSanitize cmt annot h = (h', Ok l) ->
    exists out ids keys,
      h' !! l = Some out
      /\ col "rev_id" c = Some ids /\ col "rev_id" a = Some keys
      /\ forall id, existsb (cell_eqb id) keys = true ->
           count_label id (index out) = count_label id ids
           /\ forall n vals,
                col n a = Some vals -> n <> "rev_id" ->
                length vals = length keys -> forallb is_num vals = true ->
                length (annotation_values id keys vals) = count_label id keys
                /\ exists outvals,
                     col n out = Some outvals
                     /\ length outvals = length (index out)
                     /\ forall i lab v,
                          index out !! i = Some lab -> outvals !! i = Some v ->
                          cell_eqb id lab = true ->
                          exists m, v = Num m
                                    /\ Qeq m (Qsum (annotation_values id keys vals)
                                              / inject_Z (Z.of_nat (count_label id keys))).
Proof.
  intros cmt annot h h' c a l Hc Ha H.
  destruct (JoinAndSanitize_Ok _ _ _ _ _ _ _ Hc Ha H)
    as [ids [keys [j [xs [Hids [Hkeys [Hj [Hx [Htext [Hl Hh']]]]]]]]]].
  exists (setitem (comment_column j) (map sanitized xs) j), ids, keys.
  split; [rewrite Hh'; apply lookup_insert_eq|].
  split; [exact Hids|]. split; [exact Hkeys|].
  destruct (join_Ok _ _ _ Hj) as [Hindex Hright]. cbn [index] in Hindex, Hright.
  intros id Hid.
  split.
  - rewrite index_setitem, Hindex. apply join_left_labels. exact Hid.
  - intros n vals Hn Hkey Hlen Hnum.
    destruct (mean_cell_annotation_values id keys vals Hid Hlen Hnum)
      as [Hk [m [Hmean Hm]]].
    split; [exact Hk|].
    set (ys := map (fun k => mean_cell (group_values keys k vals)) (group_keys keys)).
    assert (col n j = Some (join_right ids (group_keys keys) ys)) as Hcol.
    { apply Hright. unfold col. cbn [columns].
      rewrite (assoc_map_snd
                 (fun vs => map (fun k => mean_cell (group_values keys k vs))
                                (group_keys keys))).
      rewrite (assoc_filter _ n vals); [reflexivity|exact Hn|].
      cbn [fst snd]. rewrite (is_num_numeric _ Hnum).
      destruct (String.eqb_spec "rev_id" n); [congruence|reflexivity]. }
    assert (Hrows : forall i lab v,
              join_left ids (group_keys keys) ids !! i = Some lab ->
              join_right ids (group_keys keys) ys !! i = Some v ->
              cell_eqb id lab = true -> v = Num m).
    { intros i lab v Hi Hv Hlab.
      destruct (join_rows _ _ _ _ _ _ Hi Hv) as [o [Ho Hvo]].
      assert (existsb (cell_eqb lab) keys = true) as Hlabkeys.
      { rewrite <- Hid. apply existsb_pointwise. intros z. symmetry.
        apply cell_eqb_equiv. exact Hlab. }
      destruct (partners_group_keys _ _ Hlabkeys) as [jx [y [Hp [Hy Hly]]]].
      rewrite Hp in Ho. destruct Ho as [<-|[]].
      rewrite Hvo. unfold ys.
      rewrite (nth_lookup_Some _ _ NaN
                 (mean_cell (group_values keys y vals))).
      - rewrite <- Hmean. f_equal. symmetry. apply group_values_equiv.
        apply (cell_eqb_trans _ _ _ Hlab Hly).
      - rewrite list_lookup_fmap_Some. exists y. split; [reflexivity|exact Hy]. }
    assert (Hlenr : length (join_right ids (group_keys keys) ys)
                    = length (join_left ids (group_keys keys) ids))
      by (apply join_left_right_length; reflexivity).
    destruct (String.eqb_spec n (comment_column j)) as [Hcc|Hncc].
    + (* the judgment column is the text column: no row of the id is left *)
      rewrite <- Hcc in Hx. rewrite Hcol in Hx. apply Some_inj in Hx. subst xs.
      exists (map sanitized (join_right ids (group_keys keys) ys)).
      split; [rewrite <- Hcc; apply col_setitem_eq|].
      split; [rewrite length_map, index_setitem, Hindex; exact Hlenr|].
      intros i lab v Hi Hv Hlab. exfalso.
      rewrite index_setitem, Hindex in Hi.
      rewrite list_lookup_fmap in Hv.
      destruct (join_right ids (group_keys keys) ys !! i) as [v0|] eqn:Hv0;
        [|discriminate].
      pose proof (Hrows _ _ _ Hi Hv0 Hlab) as ->.
      rewrite forallb_forall in Htext.
      assert (In (Num m) (join_right ids (group_keys keys) ys)) as Hin
        by (apply list_elem_of_In, list_elem_of_lookup; exists i; exact Hv0).
      specialize (Htext _ Hin). discriminate.
    + exists (join_right ids (group_keys keys) ys).
      split; [rewrite col_setitem_ne by exact Hncc; exact Hcol|].
      split; [rewrite index_setitem, Hindex; exact Hlenr|].
      intros i lab v Hi Hv Hlab. rewrite index_setitem, Hindex in Hi.
      exists m. split; [apply (Hrows _ _ _ Hi Hv Hlab)|exact Hm].
Qed.

Lemma aggregator_means_witness :
  exists out ids keys,
    fst (JoinAndSanitize 0 1 example_tables) !! 2%nat = Some out
    /\ col "rev_id" example_comments = Some ids
    /\ col "rev_id" example_annotations = Some keys
    /\ forall id, existsb (cell_eqb id) keys = true ->
         count_label id (index out) = count_label id ids
         /\ forall n vals,
              col n example_annotations = Some vals ->
              n <> "rev_id" ->
              length vals = length keys -> forallb is_num vals = true ->
              length (annotation_values id keys vals) = count_label id keys
              /\ exists outvals,
                   col n out = Some outvals
                   /\ length outvals = length (index out)
                   /\ forall i lab v,
                        index out !! i = Some lab -> outvals !! i = Some v ->
                        cell_eqb id lab = true ->
                        exists m, v = Num m
                                  /\ Qeq m (Qsum (annotation_values id keys vals)
                                            / inject_Z (Z.of_nat (count_label id keys))).
Proof.
  apply (aggregator_means 0 1 example_tables
           (fst (JoinAndSanitize 0 1 example_tables))
           example_comments example_annotations 2).
  - vm_compute. reflexivity.
  - vm_compute. reflexivity.
  - vm_compute. reflexivity.
Defined.

(** ** The aggregator's failures *)

Lemma assoc_Some_In {V} (n : string) (v : V) (l : list (string * V)) :
  assoc n l = Some v -> In (n, v) l.
Proof.
  induction l as [|[k w] l IH]; [discriminate|]. simpl.
  destruct (String.eqb_spec n k) as [->|Hk]; intros H.
  - inversion H. left. reflexivity.
  - right. apply IH. exact H.
Qed.







Lemma has_col_false (n : string) (d : DataFrame) :
  has_col n d = false -> col n d = None.
Proof. unfold has_col. destruct (col n d); [discriminate|reflexivity]. Qed.

Lemma has_col_true (n : string) (d : DataFrame) :
  has_col n d = true -> exists xs, col n d = Some xs.
Proof. unfold has_col. destruct (col n d) as [xs|]; [exists xs; reflexivity|discriminate]. Qed.






(** ** The vocabulary *)

Lemma count_of_count_word (w' w : string) (wc : list (string * nat)) :
  count_of w' (count_word w wc)
  = (if String.eqb w' w then 1 else 0) + count_of w' wc.
Proof.
  unfold count_of. induction wc as [|[k n] wc IH]; simpl.
  - destruct (String.eqb w' w); reflexivity.
  - destruct (String.eqb_spec w k) as [->|Hwk]; simpl.
    + destruct (String.eqb w' k); reflexivity.
    + destruct (String.eqb_spec w' k) as [->|Hk].
      * destruct (String.eqb_spec k w); [congruence|reflexivity].
      * exact IH.
Qed.

Lemma count_of_fold (w' : string) (ws : list string) (wc : list (string * nat)) :
  count_of w' (fold_left (fun wc w => count_word w wc) ws wc)
  = occurrences w' ws + count_of w' wc.
Proof.
  revert wc. induction ws as [|w ws IH]; intros wc; [reflexivity|].
  cbn [fold_left]. rewrite IH, count_of_count_word.
  unfold occurrences. cbn [List.filter].
  destruct (String.eqb w' w); simpl; lia.
Qed.

Lemma count_word_keys (w : string) (wc : list (string * nat)) :
  map fst (count_word w wc)
  = if existsb (String.eqb w) (map fst wc) then map fst wc
    else (map fst wc ++ [w])%list.
Proof.
  induction wc as [|[k n] wc IH]; [reflexivity|]. simpl.
  destruct (String.eqb w k); simpl; [reflexivity|].
  rewrite IH. destruct (existsb (String.eqb w) (map fst wc)); reflexivity.
Qed.

Lemma existsb_eqb_In (w : string) (l : list string) :
  existsb (String.eqb w) l = true <-> In w l.
Proof.
  rewrite existsb_exists. split.
  - intros [x [Hin Hx]]. apply String.eqb_eq in Hx. subst. exact Hin.
  - intros Hin. exists w. split; [exact Hin|apply String.eqb_refl].
Qed.

Lemma count_word_NoDup (w : string) (wc : list (string * nat)) :
  NoDup (map fst wc) -> NoDup (map fst (count_word w wc)).
Proof.
  intros Hnd. rewrite count_word_keys.
  destruct (existsb (String.eqb w) (map fst wc)) eqn:E; [exact Hnd|].
  apply NoDup_app. split; [exact Hnd|]. split.
  - intros x Hx Hx'. apply list_elem_of_In in Hx'.
    destruct Hx' as [<-|[]].
    apply list_elem_of_In, existsb_eqb_In in Hx. congruence.
  - apply NoDup_singleton.
Qed.

Lemma count_word_In (x w : string) (wc : list (string * nat)) :
  In x (map fst (count_word w wc)) <-> x = w \/ In x (map fst wc).
Proof.
  rewrite count_word_keys.
  destruct (existsb (String.eqb w) (map fst wc)) eqn:E.
  - apply existsb_eqb_In in E. split; [auto|]. intros [->|H]; assumption.
  - rewrite in_app_iff. simpl. split.
    + intros [H|[H|[]]]; auto.
    + intros [H|H]; auto.
Qed.

Lemma fold_count_word_NoDup (ws : list string) (wc : list (string * nat)) :
  NoDup (map fst wc) ->
  NoDup (map fst (fold_left (fun wc w => count_word w wc) ws wc)).
Proof.
  revert wc. induction ws as [|w ws IH]; intros wc H; [exact H|].
  cbn [fold_left]. apply IH, count_word_NoDup, H.
Qed.

Lemma fold_count_word_In (x : string) (ws : list string) (wc : list (string * nat)) :
  In x (map fst (fold_left (fun wc w => count_word w wc) ws wc))
  <-> In x ws \/ In x (map fst wc).
Proof.
  revert wc. induction ws as [|w ws IH]; intros wc.
  - simpl. tauto.
  - cbn [fold_left]. rewrite IH, count_word_In. simpl. intuition congruence.
Qed.

Lemma NoDup_assoc {V} (w : string) (n : V) (l : list (string * V)) :
  NoDup (map fst l) -> In (w, n) l -> assoc w l = Some n.
Proof.
  induction l as [|[k m] l IH]; [intros _ []|].
  simpl. intros Hnd Hin. apply NoDup_cons in Hnd as [Hk Hnd].
  destruct Hin as [Hin|Hin].
  - inversion Hin; subst. rewrite String.eqb_refl. reflexivity.
  - destruct (String.eqb_spec w k) as [->|Hne]; [|apply IH; assumption].
    exfalso. apply Hk. apply list_elem_of_In.
    apply (in_map fst) in Hin. exact Hin.
Qed.

Lemma insert_by_count_perm (x : string * nat) (l : list (string * nat)) :
  Permutation (insert_by_count x l) (x :: l).
Proof.
  induction l as [|y l IH]; [reflexivity|]. simpl.
  destruct (snd x <? snd y)%nat; [|reflexivity].
  rewrite IH. apply perm_swap.
Qed.

Lemma sort_by_count_perm (l : list (string * nat)) :
  Permutation (sort_by_count l) l.
Proof.
  induction l as [|x l IH]; [reflexivity|].
  cbn [sort_by_count fold_right]. rewrite insert_by_count_perm.
  apply perm_skip. exact IH.
Qed.

Lemma insert_by_count_sorted (x : string * nat) (l : list (string * nat)) :
  StronglySorted by_count l -> StronglySorted by_count (insert_by_count x l).
Proof.
  induction l as [|y l IH]; intros Hs; simpl.
  - constructor; constructor.
  - apply StronglySorted_inv in Hs as [Hl Hy].
    destruct (Nat.ltb_spec (snd x) (snd y)) as [Hlt|Hge].
    + constructor; [apply IH; exact Hl|].
      apply Forall_forall. intros z Hz.
      apply list_elem_of_In in Hz.
      apply (Permutation_in _ (insert_by_count_perm x l)) in Hz.
      destruct Hz as [<-|Hz]; [unfold by_count; lia|].
      rewrite Forall_forall in Hy. apply Hy, list_elem_of_In, Hz.
    + constructor; [constructor; assumption|].
      constructor; [exact Hge|].
      apply Forall_forall. intros z Hz. rewrite Forall_forall in Hy.
      specialize (Hy z Hz). unfold by_count in *. lia.
Qed.

Lemma sort_by_count_sorted (l : list (string * nat)) :
  StronglySorted by_count (sort_by_count l).
Proof.
  induction l as [|x l IH]; [constructor|].
  cbn [sort_by_count fold_right]. apply insert_by_count_sorted, IH.
Qed.

Lemma StronglySorted_lookup {A} (R : A -> A -> Prop) (l : list A) :
  StronglySorted R l ->
  forall i j x y, i < j -> l !! i = Some x -> l !! j = Some y -> R x y.
Proof.
  induction 1 as [|a l Hs IH Ha]; intros i j x y Hij Hi Hj; [discriminate|].
  destruct j as [|j]; [lia|]. simpl in Hj.
  destruct i as [|i]; simpl in Hi.
  - inversion Hi; subst. rewrite Forall_forall in Ha.
    apply Ha, list_elem_of_lookup. exists j. exact Hj.
  - apply (IH i j); [lia|assumption|assumption].
Qed.

Lemma combine_lookup {A B} (l1 : list A) (l2 : list B) (i : nat) (a : A) (b : B) :
  combine l1 l2 !! i = Some (a, b) -> l1 !! i = Some a /\ l2 !! i = Some b.
Proof.
  revert l2 i. induction l1 as [|x l1 IH]; intros l2 i H; [discriminate|].
  destruct l2 as [|y l2]; [discriminate|].
  destruct i as [|i]; simpl in *.
  - inversion H; subst. split; reflexivity.
  - apply IH. exact H.
Qed.

Lemma combine_seq_fst {A} (l : list A) (s : nat) :
  map fst (combine l (seq s (length l))) = l.
Proof.
  revert s. induction l as [|x l IH]; intros s; [reflexivity|].
  simpl. rewrite IH. reflexivity.
Qed.

Lemma combine_seq_snd {A} (l : list A) (s : nat) :
  map snd (combine l (seq s (length l))) = seq s (length l).
Proof.
  revert s. induction l as [|x l IH]; intros s; [reflexivity|].
  simpl. rewrite IH. reflexivity.
Qed.

Lemma train_tokenizer_fit (n L : nat) (cd uef : bool) (train test : list string) :
  tokenizer (train_tokenizer train test (init n L cd uef))
  = fit_on_texts (if cd then train ++ test else train)%list (new_Tokenizer n).
Proof. unfold train_tokenizer, init. destruct cd; reflexivity. Qed.

(** C6, as stated: with the cap 2 the mapping still holds three words. *)
Lemma word_index_exceeds_cap :
  ~ length (word_index
              (tokenizer (train_tokenizer ["a a a"; "b b"; "c"] []
                            (init 2 4 false false)))) <= 2.
Proof. vm_compute. lia. Qed.

(** C6, amended.  After [train_tokenizer] on a new preprocessor,
    [word_index] lists every distinct word of the fitted texts once,
    whatever [max_nb_words] is: the ranks are 1, 2, ... in order, a word
    of a lower rank is at least as frequent as one of a higher rank, and
    no word has the rank 0, which is left for padding.  The cap acts when
    texts are encoded: only ranks below a non-zero [max_nb_words] are
    kept.  With the cap 3 over "a a a", "b b", "c" the mapping is
    a:1, b:2, c:3. *)
Theorem word_index_ranks :
  forall (n L : nat) (cd uef : bool) (train test : list string),
    let t := tokenizer (train_tokenizer train test (init n L cd uef)) in
    let ws := fitted_words cd train test in
    map snd (word_index t) = seq 1 (length (word_index t))
    /\ NoDup (map fst (word_index t))
    /\ (forall w, In w (map fst (word_index t)) <-> In w ws)
    /\ (forall i j wi ri wj rj,
          word_index t !! i = Some (wi, ri) ->
          word_index t !! j = Some (wj, rj) ->
          i <= j -> occurrences wj ws <= occurrences wi ws)
    /\ (forall w r, In (w, r) (word_index t) -> r <> 0)
    /\ (forall ws', Forall (fun r => 1 <= r /\ (n <> 0 -> r < n))
                           (encode_words t ws'))
    /\ word_index (tokenizer (train_tokenizer ["a a a"; "b b"; "c"] []
                                (init 3 L cd uef)))
       = [("a", 1); ("b", 2); ("c", 3)].
Proof.
  intros n L cd uef train test t ws.
  assert (Ht : t = fit_on_texts (if cd then train ++ test else train)%list
                     (new_Tokenizer n)) by apply train_tokenizer_fit.
  set (wc := fold_left (fun wc w => count_word w wc) ws []).
  set (sorted := sort_by_count wc).
  assert (Hwi : word_index t = combine (map fst sorted)
                                 (seq 1 (length (map fst sorted)))).
  { rewrite Ht. reflexivity. }
  assert (Hnum : num_words t = n) by (rewrite Ht; reflexivity).
  assert (Hnames : map fst (word_index t) = map fst sorted)
    by (rewrite Hwi; apply combine_seq_fst).
  assert (Hranks : map snd (word_index t) = seq 1 (length (word_index t))).
  { rewrite Hwi, combine_seq_snd. f_equal.
    rewrite length_combine, length_seq. lia. }
  assert (Hperm : Permutation sorted wc) by apply sort_by_count_perm.
  assert (Hnd : NoDup (map fst wc))
    by (apply fold_count_word_NoDup; constructor).
  assert (Hpos : forall w r, In (w, r) (word_index t) -> r <> 0).
  { intros w r Hin. apply (in_map snd) in Hin. rewrite Hranks in Hin.
    apply in_seq in Hin. simpl in Hin. lia. }
  split; [exact Hranks|]. split; [|split; [|split; [|split; [|split]]]].
  - rewrite Hnames. apply NoDup_ListNoDup.
    apply (Permutation_NoDup (l := map fst wc)).
    + symmetry. apply Permutation_map. exact Hperm.
    + apply NoDup_ListNoDup. exact Hnd.
  - intros w. rewrite Hnames.
    assert (In w (map fst sorted) <-> In w (map fst wc)) as ->.
    { split; apply Permutation_in; [|symmetry]; apply Permutation_map; exact Hperm. }
    unfold wc. rewrite fold_count_word_In. simpl. tauto.
  - intros i j wi ri wj rj Hi Hj Hij.
    rewrite Hwi in Hi, Hj.
    apply combine_lookup in Hi as [Hi _]. apply combine_lookup in Hj as [Hj _].
    rewrite list_lookup_fmap in Hi, Hj.
    destruct (sorted !! i) as [[wi' ci]|] eqn:Hsi; [|discriminate].
    destruct (sorted !! j) as [[wj' cj]|] eqn:Hsj; [|discriminate].
    simpl in Hi, Hj. inversion Hi; inversion Hj; subst wi' wj'.
    assert (Hcount : forall w c, In (w, c) sorted -> c = occurrences w ws).
    { intros w c Hin. apply (Permutation_in _ Hperm) in Hin.
      pose proof (NoDup_assoc _ _ _ Hnd Hin) as Ha.
      pose proof (count_of_fold w ws []) as Hc. fold wc in Hc.
      unfold count_of in Hc at 1. rewrite Ha in Hc.
      unfold count_of in Hc. simpl in Hc. lia. }
    rewrite <- (Hcount wi ci), <- (Hcount wj cj).
    + destruct (Nat.eq_dec i j) as [->|Hne].
      * rewrite Hsi in Hsj. inversion Hsj. lia.
      * apply (StronglySorted_lookup by_count sorted (sort_by_count_sorted wc)
                 i j (wi, ci) (wj, cj)); [lia|assumption|assumption].
    + apply list_elem_of_In, list_elem_of_lookup. exists j. exact Hsj.
    + apply list_elem_of_In, list_elem_of_lookup. exists i. exact Hsi.
  - exact Hpos.
  - intros ws'. unfold encode_words. rewrite Hnum.
    induction ws' as [|w ws' IH]; [constructor|].
    cbn [flat_map]. apply Forall_app. split; [|exact IH].
    destruct (assoc w (word_index t)) as [r|] eqn:Hr; [|constructor].
    destruct (Nat.eqb_spec n 0) as [Hn|Hn]; cbn [negb andb].
    + constructor; [|constructor]. split; [|intros; contradiction].
      apply assoc_Some_In, Hpos in Hr. lia.
    + destruct (Nat.leb_spec n r) as [Hle|Hlt]; [constructor|].
      constructor; [|constructor]. split; [|intros _; exact Hlt].
      apply assoc_Some_In, Hpos in Hr. lia.
  - rewrite train_tokenizer_fit. destruct cd; reflexivity.
Qed.

(** ** Sanitization applied twice *)

Ltac each_char c :=
  destruct c as [[] [] [] [] [] [] [] []]; try reflexivity; try discriminate.














(** *** No lone "u" is left, and none arises *)






Lemma bang_not_space (c : ascii) : is_bang c = true -> is_space c = false.
Proof. each_char c. Qed.

Lemma space_not_letter (c : ascii) : is_space c = true -> is_letter c = false.
Proof. each_char c. Qed.







Lemma rstrip_empty_head (s : string) :
  rstrip s = EmptyString -> head_is_letter s = false.
Proof.
  destruct s as [|c s]; [reflexivity|]. cbn [rstrip].
  destruct (rstrip s); [|discriminate].
  destruct (is_space c) eqn:E; [|discriminate].
  intros _. apply space_not_letter, E.
Qed.








(** *** The shape of sanitized text *)


Lemma eqb_space_is_space (c : ascii) : Ascii.eqb c " " = true -> is_space c = true.
Proof. each_char c. Qed.

Lemma banged_sub_bangs (b : bool) (s : string) : banged (sub_bangs_from b s) = true.
Proof.
  revert b. induction s as [|c s IH]; intros b; [reflexivity|].
  cbn [sub_bangs_from]. destruct (is_bang c) eqn:E.
  - destruct b; [apply IH|]. cbn [banged]. change (is_bang "!") with true.
    change (is_bang " ") with false. change (head_is_space (String " " _)) with true.
    cbn [andb]. apply IH.
  - cbn [banged]. rewrite E. apply IH.
Qed.

Lemma spaced_sub_spaces (b : bool) (s : string) :
  banged s = true ->
  spaced (sub_spaces_from b s) = true
  /\ (b = true -> head_is_space (sub_spaces_from b s) = false).
Proof.
  revert b. induction s as [|c s IH]; intros b Hs.
  - split; reflexivity.
  - cbn [banged] in Hs. apply andb_prop in Hs as [Hc Hs].
    cbn [sub_spaces_from]. destruct (is_space c) eqn:E.
    + destruct b.
      * apply IH, Hs.
      * destruct (IH true Hs) as [H1 H2]. split; [|discriminate].
        cbn [spaced]. change (is_bang " ") with false. change (is_space " ") with true.
        rewrite H1, (H2 eq_refl). reflexivity.
    + destruct (IH false Hs) as [H1 _]. split; [|intros _; simpl; exact E].
      cbn [spaced]. rewrite E, H1. destruct (is_bang c); [|reflexivity].
      destruct s as [|d s]; [discriminate|]. simpl in Hc.
      cbn [sub_spaces_from]. rewrite Hc. reflexivity.
Qed.

Lemma head_rstrip (s : string) (d : ascii) (r : string) :
  rstrip s = String d r -> exists r', s = String d r'.
Proof.
  destruct s as [|c s]; [discriminate|]. cbn [rstrip].
  destruct (rstrip s).
  - destruct (is_space c); [discriminate|]. intros H. inversion H. exists s. reflexivity.
  - intros H. inversion H. exists s. reflexivity.
Qed.

Lemma tidy_cons2 (c d : ascii) (r : string) :
  tidy (String c (String d r))
  = (if is_bang c then Ascii.eqb d " " else true)
    && (if is_space c then Ascii.eqb c " " && negb (is_space d) else true)
    && tidy (String d r).
Proof. reflexivity. Qed.

Lemma tidy_rstrip (s : string) : spaced s = true -> tidy (rstrip s) = true.
Proof.
  induction s as [|c s IH]; [reflexivity|].
  cbn [spaced]. intros H. apply andb_prop in H as [H Hs].
  apply andb_prop in H as [Hb Hsp]. specialize (IH Hs).
  cbn [rstrip]. destruct (rstrip s) as [|d r] eqn:Er.
  - destruct (is_space c) eqn:E; [reflexivity|]. simpl. rewrite E. reflexivity.
  - destruct (head_rstrip _ _ _ Er) as [r' ->].
    rewrite tidy_cons2, IH. simpl in Hb, Hsp.
    destruct (is_bang c); [rewrite Hb|]; destruct (is_space c); try rewrite Hsp;
      reflexivity.
Qed.

Lemma tidy_tail (c : ascii) (s : string) : tidy (String c s) = true -> tidy s = true.
Proof.
  destruct s as [|d s]; [reflexivity|]. rewrite tidy_cons2.
  intros H. apply andb_prop in H as [_ H]. exact H.
Qed.

Lemma tidy_lstrip (s : string) : tidy s = true -> tidy (lstrip s) = true.
Proof.
  induction s as [|c s IH]; [reflexivity|]. intros H. cbn [lstrip].
  destruct (is_space c); [apply IH, (tidy_tail _ _ H)|exact H].
Qed.

Lemma head_lstrip (s : string) : head_is_space (lstrip s) = false.
Proof.
  induction s as [|c s IH]; [reflexivity|]. cbn [lstrip].
  destruct (is_space c) eqn:E; [exact IH|exact E].
Qed.

Lemma lower_char_space (c : ascii) : is_space (lower_char c) = is_space c.
Proof. each_char c. Qed.

Lemma lower_char_bang (c : ascii) : is_bang (lower_char c) = is_bang c.
Proof. each_char c. Qed.

Lemma lower_char_eqb_space (c : ascii) :
  Ascii.eqb (lower_char c) " " = Ascii.eqb c " ".
Proof. each_char c. Qed.

Lemma tidy_lower (s : string) : tidy (lower s) = tidy s.
Proof.
  unfold lower. induction s as [|c s IH]; [reflexivity|].
  destruct s as [|d s].
  - simpl. rewrite lower_char_space. reflexivity.
  - change (smap lower_char (String c (String d s)))
      with (String (lower_char c) (smap lower_char (String d s))).
    change (smap lower_char (String d s))
      with (String (lower_char d) (smap lower_char s)) in *.
    rewrite !tidy_cons2, IH.
    rewrite !lower_char_bang, !lower_char_space, !lower_char_eqb_space.
    reflexivity.
Qed.

Lemma head_is_space_lower (s : string) :
  head_is_space (lower s) = head_is_space s.
Proof. destruct s as [|c s]; [reflexivity|]. simpl. apply lower_char_space. Qed.

(** Sanitized text is tidy and starts with no space. *)
Lemma tidy_Sanitize_tail (y : string) :
  let z := lower (strip (sub_spaces (sub_bangs y))) in
  tidy z = true /\ head_is_space z = false.
Proof.
  intros z. unfold z, strip, sub_spaces, sub_bangs. split.
  - rewrite tidy_lower. apply tidy_lstrip, tidy_rstrip.
    apply spaced_sub_spaces, banged_sub_bangs.
  - rewrite head_is_space_lower. apply head_lstrip.
Qed.




(** *** The characters of sanitized text *)

Lemma all_chars_smap (P : ascii -> bool) (f : ascii -> ascii) (s : string) :
  (forall c, P (f c) = true) -> all_chars P (smap f s) = true.
Proof.
  intros H. induction s as [|c s IH]; [reflexivity|]. simpl.
  rewrite H, IH. reflexivity.
Qed.

Lemma all_chars_smap_impl (P Q : ascii -> bool) (f : ascii -> ascii) (s : string) :
  (forall c, P c = true -> Q (f c) = true) ->
  all_chars P s = true -> all_chars Q (smap f s) = true.
Proof.
  intros H. induction s as [|c s IH]; [reflexivity|]. simpl.
  intros Hs. apply andb_prop in Hs as [Hc Hs]. rewrite (H c Hc), (IH Hs). reflexivity.
Qed.

Lemma all_chars_sub_bangs (P : ascii -> bool) (b : bool) (s : string) :
  P "!"%char = true -> P " "%char = true ->
  all_chars P s = true -> all_chars P (sub_bangs_from b s) = true.
Proof.
  intros Hb Hsp. revert b. induction s as [|c s IH]; intros b; [reflexivity|].
  cbn [all_chars]. intros H. apply andb_prop in H as [Hc Hs].
  cbn [sub_bangs_from]. destruct (is_bang c).
  - destruct b; [apply IH, Hs|]. cbn [all_chars]. rewrite Hb, Hsp, (IH _ Hs).
    reflexivity.
  - cbn [all_chars]. rewrite Hc, (IH _ Hs). reflexivity.
Qed.

Lemma all_chars_sub_spaces (P : ascii -> bool) (b : bool) (s : string) :
  P " "%char = true ->
  all_chars P s = true -> all_chars P (sub_spaces_from b s) = true.
Proof.
  intros Hsp. revert b. induction s as [|c s IH]; intros b; [reflexivity|].
  cbn [all_chars]. intros H. apply andb_prop in H as [Hc Hs].
  cbn [sub_spaces_from]. destruct (is_space c).
  - destruct b; [apply IH, Hs|]. cbn [all_chars]. rewrite Hsp, (IH _ Hs).
    reflexivity.
  - cbn [all_chars]. rewrite Hc, (IH _ Hs). reflexivity.
Qed.

Lemma all_chars_lstrip (P : ascii -> bool) (s : string) :
  all_chars P s = true -> all_chars P (lstrip s) = true.
Proof.
  induction s as [|c s IH]; [reflexivity|]. intros H. cbn [lstrip].
  destruct (is_space c); [|exact H].
  cbn [all_chars] in H. apply andb_prop in H as [_ Hs]. apply IH, Hs.
Qed.

Lemma all_chars_rstrip (P : ascii -> bool) (s : string) :
  all_chars P s = true -> all_chars P (rstrip s) = true.
Proof.
  induction s as [|c s IH]; [reflexivity|].
  cbn [all_chars]. intros H. apply andb_prop in H as [Hc Hs].
  specialize (IH Hs). cbn [rstrip]. destruct (rstrip s).
  - destruct (is_space c); [reflexivity|]. simpl. rewrite Hc. reflexivity.
  - cbn [all_chars] in *. rewrite Hc, IH. reflexivity.
Qed.

Lemma plain_keep (c : ascii) : plain_char (keep_letter_bang c) = true.
Proof. each_char c. Qed.

Lemma plain_lower (c : ascii) : plain_char c = true -> clean_char (lower_char c) = true.
Proof. each_char c. Qed.

Lemma clean_Sanitize_tail (y : string) :
  all_chars clean_char
    (lower (strip (sub_spaces (sub_bangs (sub_nonletter_bang y))))) = true.
Proof.
  unfold lower. apply (all_chars_smap_impl plain_char); [apply plain_lower|].
  apply all_chars_lstrip, all_chars_rstrip.
  apply all_chars_sub_spaces; [reflexivity|].
  apply all_chars_sub_bangs; [reflexivity|reflexivity|].
  apply all_chars_smap, plain_keep.
Qed.



(** *** text_normalization and the letters "http" *)

















Lemma letter_or_space_keep (c : ascii) : letter_or_space (keep_letter c) = true.
Proof. each_char c. Qed.


Lemma letter_or_space_lower (c : ascii) :
  letter_or_space c = true -> lower_or_space (lower_char c) = true.
Proof. each_char c. Qed.








Lemma comment_column_setitem (d : DataFrame) (ys xs : list cell) :
  col (comment_column d) d = Some xs ->
  comment_column (setitem (comment_column d) ys d) = comment_column d.
Proof.
  intros Hx. unfold comment_column at 1 3. unfold has_col.
  destruct (String.eqb_spec "comment" (comment_column d)) as [E|E].
  - rewrite <- E at 1. rewrite col_setitem_eq. rewrite E at 2. rewrite Hx.
    reflexivity.
  - rewrite col_setitem_ne by exact E. reflexivity.
Qed.




(* ===================================================================== *)
(** * Further properties of the two modules *)
(* ===================================================================== *)

(** ** The shape of the text that the sanitizers produce *)

(** X1.  Whatever the text, [Sanitize] leaves only small letters, "!" and
    single spaces: no space starts or ends the result, no two spaces are
    adjacent, and every "!" is followed by a space or ends the text.  So
    it is with every cell of the text column of a table on which
    [Sanitize] returns. *)
Theorem Sanitize_text_shape :
  (forall x : option string,
     all_chars clean_char (Sanitize_text x) = true
     /\ tidy (Sanitize_text x) = true
     /\ head_is_space (Sanitize_text x) = false)
  /\ (forall (df : nat) (h h' : heap) (r : nat),
        Sanitize df h = (h', Ok r) ->
        exists d' ys,
          h' !! df = Some d' /\ col (comment_column d') d' = Some ys
          /\ Forall (fun y => exists z, y = Str z
                                        /\ all_chars clean_char z = true
                                        /\ tidy z = true
                                        /\ head_is_space z = false) ys).
Proof.
  assert (Hcell : forall x : option string,
            all_chars clean_char (Sanitize_text x) = true
            /\ tidy (Sanitize_text x) = true
            /\ head_is_space (Sanitize_text x) = false).
  { intros x. split; [apply clean_Sanitize_tail|]. apply tidy_Sanitize_tail. }
  split; [exact Hcell|].
  intros df h h' r H. pose proof (Sanitize_cases df h) as Hc.
  destruct (h !! df) as [d|] eqn:Hl; [|rewrite Hc in H; discriminate].
  destruct (col (comment_column d) d) as [xs|] eqn:Hx;
    [|rewrite Hc in H; discriminate].
  destruct (forallb textual xs);
    [|destruct Hc as [h0 Hc]; rewrite Hc in H; discriminate].
  rewrite Hc in H. inversion H; subst. clear H Hc.
  exists (setitem (comment_column d) (map sanitized xs) d), (map sanitized xs).
  split; [apply lookup_insert_eq|].
  split; [rewrite (comment_column_setitem _ _ xs Hx); apply col_setitem_eq|].
  apply Forall_forall. intros y Hy. apply list_elem_of_In, in_map_iff in Hy.
  destruct Hy as [x [<- _]]. exists (Sanitize_text (text_of x)).
  split; [reflexivity|apply Hcell].
Qed.


Lemma all_chars_app (P : ascii -> bool) (s t : string) :
  all_chars P (s ++ t) = all_chars P s && all_chars P t.
Proof.
  induction s as [|c s IH]; [reflexivity|]. simpl. rewrite IH.
  apply andb_assoc.
Qed.

Lemma all_chars_replace_from (P : ascii -> bool) (old new : string) (skip : nat)
    (s : string) :
  all_chars P new = true -> all_chars P s = true ->
  all_chars P (replace_from old new skip s) = true.
Proof.
  intros Hnew. revert skip. induction s as [|c s IH]; intros skip; [reflexivity|].
  cbn [all_chars]. intros H. apply andb_prop in H as [Hc Hs].
  cbn [replace_from]. destruct skip as [|k]; [|apply IH, Hs].
  destruct (starts_with old (String c s)).
  - rewrite all_chars_app, Hnew. apply IH, Hs.
  - cbn [all_chars]. rewrite Hc. apply IH, Hs.
Qed.

(** X3.  Whatever the text, [text_normalization] leaves only small
    letters and spaces; so it is with every cell of the column
    [comment_text] of a table on which [text_normalization] returns. *)
Theorem text_normalization_text_chars :
  (forall x : option string,
     all_chars lower_or_space (text_normalization_text x) = true)
  /\ (forall (df : nat) (h h' : heap) (u : unit),
        text_normalization df h = (h', Ok u) ->
        exists d' ys,
          h' !! df = Some d' /\ col "comment_text" d' = Some ys
          /\ Forall (fun y => exists z, y = Str z
                                        /\ all_chars lower_or_space z = true) ys).
Proof.
  assert (Hcell : forall x : option string,
            all_chars lower_or_space (text_normalization_text x) = true).
  { intros x. unfold text_normalization_text, lower.
    apply (all_chars_smap_impl letter_or_space); [apply letter_or_space_lower|].
    apply all_chars_replace_from; [reflexivity|].
    unfold strip, sub_spaces.
    apply all_chars_lstrip, all_chars_rstrip, all_chars_sub_spaces; [reflexivity|].
    apply all_chars_smap, letter_or_space_keep. }
  split; [exact Hcell|].
  intros df h h' u H. pose proof (text_normalization_cases df h) as Hc.
  destruct (h !! df) as [d|] eqn:Hl; [|rewrite Hc in H; discriminate].
  destruct (col "comment_text" d) as [xs|] eqn:Hx;
    [|rewrite Hc in H; discriminate].
  destruct (forallb textual xs);
    [|destruct Hc as [h0 Hc]; rewrite Hc in H; discriminate].
  rewrite Hc in H. inversion H; subst. clear H Hc.
  exists (setitem "comment_text" (map normalized xs) d), (map normalized xs).
  split; [apply lookup_insert_eq|]. split; [apply col_setitem_eq|].
  apply Forall_forall. intros y Hy. apply list_elem_of_In, in_map_iff in Hy.
  destruct Hy as [x [<- _]]. exists (text_normalization_text (text_of x)).
  split; [reflexivity|apply Hcell].
Qed.

(** ** How the sanitizers fail *)

Lemma Sanitize_number (l : nat) (h : heap) (d : DataFrame) (xs : list cell) :
  h !! l = Some d -> col (comment_column d) d = Some xs ->
  forallb textual xs = false ->
  Sanitize l h
  = (<[l := setitem (comment_column d) (map fill xs) d]> h, Raise AttributeError).
Proof.
  intros Hl Hc Ht. rewrite Sanitize_unfold. unfold bind at 1, read_frame.
  rewrite Hl. unfold Sanitize_steps. cbn [seq_apply fold_right].
  unfold bind at 1.
  rewrite (apply_col_Ok _ _ _ _ _ _ _ Hl Hc (mapR_fillna xs)).
  unfold bind at 1.
  rewrite (apply_col_Raise _ _ _ _ (setitem (comment_column d) (map fill xs) d)
             (map fill xs) AttributeError).
  - reflexivity.
  - apply lookup_insert_eq.
  - apply col_setitem_eq.
  - apply mapR_on_text_number, Ht.
Qed.

Lemma text_normalization_number (l : nat) (h : heap) (d : DataFrame)
    (xs : list cell) :
  h !! l = Some d -> col "comment_text" d = Some xs ->
  forallb textual xs = false ->
  text_normalization l h
  = (<[l := setitem "comment_text" (map fill xs) d]> h, Raise TypeError).
Proof.
  intros Hl Hc Ht. unfold text_normalization.
  unfold bind at 1.
  rewrite (apply_col_Ok _ _ _ _ _ _ _ Hl Hc (mapR_fillna xs)).
  unfold bind at 1.
  rewrite (apply_col_Raise _ _ _ _ (setitem "comment_text" (map fill xs) d)
             (map fill xs) TypeError).
  - reflexivity.
  - apply lookup_insert_eq.
  - apply col_setitem_eq.
  - apply mapR_on_text_number, Ht.
Qed.

(** X4.  [Sanitize] on a table with neither a column "comment" nor a
    column "comment_text" raises [KeyError('comment_text')] and changes
    nothing.  On a table whose text column holds a number it raises
    [AttributeError], and the table is left half rewritten: the missing
    values of the column are already replaced by "unk", the texts are
    still raw. *)
Theorem Sanitize_failures :
  forall (df : nat) (h : heap) (d : DataFrame),
    h !! df = Some d ->
    (has_col "comment" d = false -> has_col "comment_text" d = false ->
     Sanitize df h = (h, Raise (KeyError "comment_text")))
    /\ (forall xs, col (comment_column d) d = Some xs ->
                   forallb textual xs = false ->
                   Sanitize df h
                   = (<[df := setitem (comment_column d) (map fill xs) d]> h,
                      Raise AttributeError)).
Proof.
  intros df h d Hl. split.
  - intros H1 H2. pose proof (Sanitize_cases df h) as Hc. rewrite Hl in Hc.
    unfold comment_column in Hc. rewrite H1 in Hc.
    rewrite (has_col_false _ _ H2) in Hc. exact Hc.
  - intros xs Hx Ht. apply Sanitize_number; assumption.
Qed.

Lemma Sanitize_failures_witness :
  (has_col "comment" keyless_number = false ->
   has_col "comment_text" keyless_number = false ->
   Sanitize 0 {[ 0%nat := keyless_number ]}
   = ({[ 0%nat := keyless_number ]}, Raise (KeyError "comment_text")))
  /\ (forall xs, col (comment_column keyless_number) keyless_number = Some xs ->
                 forallb textual xs = false ->
                 Sanitize 0 {[ 0%nat := keyless_number ]}
                 = (<[0%nat := setitem (comment_column keyless_number)
                                 (map fill xs) keyless_number]>
                      {[ 0%nat := keyless_number ]},
                    Raise AttributeError)).
Proof.
  apply (Sanitize_failures 0 {[ 0%nat := keyless_number ]} keyless_number).
  vm_compute. reflexivity.
Defined.

(** A number among the comments: the run stops at the first call of
    [replace], after [fillna]. *)
Example Sanitize_on_number :
  Sanitize 0 {[ 0%nat := example_frame "comment" [NaN; Num 7; Str "A B"] ]}
  = ({[ 0%nat := example_frame "comment" [Str "unk"; Num 7; Str "A B"] ]},
     Raise AttributeError).
Proof. vm_compute. reflexivity. Qed.

(** X5.  [text_normalization] reads the column "comment_text" only: on a
    table without it, also one that has a column "comment", it raises
    [KeyError('comment_text')] and changes nothing.  On a table whose
    column holds a number it raises [TypeError], the missing values of
    the column being already replaced by "unk". *)
Theorem text_normalization_failures :
  forall (df : nat) (h : heap) (d : DataFrame),
    h !! df = Some d ->
    (has_col "comment_text" d = false ->
     text_normalization df h = (h, Raise (KeyError "comment_text")))
    /\ (forall xs, col "comment_text" d = Some xs ->
                   forallb textual xs = false ->
                   text_normalization df h
                   = (<[df := setitem "comment_text" (map fill xs) d]> h,
                      Raise TypeError)).
Proof.
  intros df h d Hl. split.
  - intros H1. pose proof (text_normalization_cases df h) as Hc. rewrite Hl in Hc.
    rewrite (has_col_false _ _ H1) in Hc. exact Hc.
  - intros xs Hx Ht. apply text_normalization_number; assumption.
Qed.

Lemma text_normalization_failures_witness :
  (has_col "comment_text" (example_frame "comment" example_cells) = false ->
   text_normalization 0 {[ 0%nat := example_frame "comment" example_cells ]}
   = ({[ 0%nat := example_frame "comment" example_cells ]},
      Raise (KeyError "comment_text")))
  /\ (forall xs,
        col "comment_text" (example_frame "comment" example_cells) = Some xs ->
        forallb textual xs = false ->
        text_normalization 0 {[ 0%nat := example_frame "comment" example_cells ]}
        = (<[0%nat := setitem "comment_text" (map fill xs)
                        (example_frame "comment" example_cells)]>
             {[ 0%nat := example_frame "comment" example_cells ]},
           Raise TypeError)).
Proof.
  apply (text_normalization_failures 0
           {[ 0%nat := example_frame "comment" example_cells ]}
           (example_frame "comment" example_cells)).
  vm_compute. reflexivity.
Defined.

(** ** The aggregator keeps the rows of the comment table *)











(** [Sanitize] touches no frame but its own. *)
Lemma Sanitize_other_frames (l l' : nat) (h : heap) :
  l' <> l -> fst (Sanitize l h) !! l' = h !! l'.
Proof.
  intros Hne. pose proof (Sanitize_cases l h) as Hc.
  destruct (h !! l) as [d|] eqn:Hl; [|rewrite Hc; reflexivity].
  destruct (col (comment_column d) d) as [xs|] eqn:Hx; [|rewrite Hc; reflexivity].
  destruct (forallb textual xs) eqn:Ht.
  - rewrite Hc. apply lookup_insert_ne. congruence.
  - rewrite (Sanitize_number _ _ _ _ Hl Hx Ht). apply lookup_insert_ne. congruence.
Qed.

(** X8.  The Aggregator never changes a table that exists when it is
    called, whether it returns or raises; and the table it returns is a
    new one. *)
Theorem JoinAndSanitize_new_table :
  forall (cmt annot : nat) (h : heap),
    (forall l' d', h !! l' = Some d' ->
                   fst (JoinAndSanitize cmt annot h) !! l' = Some d')
    /\ (forall l, snd (JoinAndSanitize cmt annot h) = Ok l -> h !! l = None).
Proof.
  intros cmt annot h.
  assert (Hfresh : h !! fresh (dom h) = None)
    by (apply not_elem_of_dom, is_fresh).
  destruct (h !! cmt) as [c|] eqn:Hc.
  2:{ assert (JoinAndSanitize cmt annot h = (h, Raise ReferenceError)) as ->.
      { unfold JoinAndSanitize. unfold bind at 1, read_frame at 1. rewrite Hc.
        reflexivity. }
      split; [intros l' d' Hl'; exact Hl'|discriminate]. }
  destruct (h !! annot) as [a|] eqn:Ha.
  2:{ assert (JoinAndSanitize cmt annot h = (h, Raise ReferenceError)) as ->.
      { unfold JoinAndSanitize. unfold bind at 1, read_frame at 1. rewrite Hc.
        unfold bind at 1, read_frame at 1. rewrite Ha. reflexivity. }
      split; [intros l' d' Hl'; exact Hl'|discriminate]. }
  rewrite (JoinAndSanitize_run _ _ _ _ _ Hc Ha).
  destruct (set_index "rev_id" c) as [ci|e];
    [|split; [intros l' d' Hl'; exact Hl'|discriminate]].
  destruct (groupby_mean "rev_id" a) as [g|e];
    [|split; [intros l' d' Hl'; exact Hl'|discriminate]].
  destruct (join ci g) as [j|e];
    [|split; [intros l' d' Hl'; exact Hl'|discriminate]].
  set (l0 := fresh (dom h)) in *.
  assert (Hst : forall l' d', h !! l' = Some d' ->
            fst (Sanitize l0 (<[l0 := j]> h)) !! l' = Some d').
  { intros l' d' Hl'. assert (l' <> l0) as Hne by congruence.
    rewrite (Sanitize_other_frames _ _ _ Hne).
    rewrite lookup_insert_ne by congruence. exact Hl'. }
  pose proof (Sanitize_cases l0 (<[l0 := j]> h)) as Hcases.
  rewrite lookup_insert_eq in Hcases.
  unfold bind.
  destruct (Sanitize l0 (<[l0 := j]> h)) as [h1 [r|e]] eqn:HS.
  - split; [exact Hst|]. cbn [snd ret]. intros l Hl. apply Ok_inj in Hl. subst l.
    destruct (col (comment_column j) j) as [xs|]; [|discriminate].
    destruct (forallb textual xs);
      [|destruct Hcases as [h0 Hcases]; discriminate].
    inversion Hcases; subst. exact Hfresh.
  - split; [exact Hst|]. discriminate.
Qed.

(** X9.  When the two tables share a column name other than the key, and
    the annotation table's column of that name holds numbers, the
    Aggregator raises [ValueError] and changes nothing. *)
Theorem JoinAndSanitize_shared_column :
  forall (cmt annot : nat) (h : heap) (c a : DataFrame)
         (n : string) (xs vals : list cell),
    h !! cmt = Some c -> h !! annot = Some a ->
    has_col "rev_id" c = true -> has_col "rev_id" a = true ->
    n <> "rev_id" -> col n c = Some xs -> col n a = Some vals ->
    is_numeric vals = true ->
    JoinAndSanitize cmt annot h = (h, Raise ValueError).
Proof.
  intros cmt annot h c a n xs vals Hc Ha Hkc Hka Hn Hxs Hvals Hnum.
  rewrite (JoinAndSanitize_run _ _ _ _ _ Hc Ha).
  destruct (has_col_true _ _ Hkc) as [ids Hids].
  destruct (has_col_true _ _ Hka) as [keys Hkeys].
  unfold set_index, groupby_mean. rewrite Hids, Hkeys.
  unfold join.
  assert (overlap
            (mkDF (Some "rev_id") ids
               (List.filter (fun c0 => negb (String.eqb "rev_id" (fst c0)))
                  (columns c)))
            (mkDF (Some "rev_id") (group_keys keys)
               (map (fun c0 => (fst c0,
                                map (fun k => mean_cell (group_values keys k (snd c0)))
                                    (group_keys keys)))
                  (List.filter (fun c0 => negb (String.eqb "rev_id" (fst c0))
                                          && is_numeric (snd c0)) (columns a))))
          = true) as ->; [|reflexivity].
  unfold overlap. apply existsb_exists. exists (n, xs). split.
  - cbn [columns]. apply filter_In. split; [apply assoc_Some_In, Hxs|].
    cbn [fst]. destruct (String.eqb_spec "rev_id" n); [congruence|reflexivity].
  - cbn [fst]. unfold has_col, col. cbn [columns].
    rewrite (assoc_map_snd
               (fun vs => map (fun k => mean_cell (group_values keys k vs))
                              (group_keys keys))).
    rewrite (assoc_filter _ n vals); [reflexivity|exact Hvals|].
    cbn [fst snd]. rewrite Hnum.
    destruct (String.eqb_spec "rev_id" n); [congruence|reflexivity].
Qed.

Lemma JoinAndSanitize_shared_column_witness :
  JoinAndSanitize 0 1 shared_tables = (shared_tables, Raise ValueError).
Proof.
  apply (JoinAndSanitize_shared_column 0 1 shared_tables
           shared_comments example_annotations "toxicity"
           [Num 5] [Num 1; Num 0; Num 1]).
  - vm_compute. reflexivity.
  - vm_compute. reflexivity.
  - reflexivity.
  - reflexivity.
  - discriminate.
  - reflexivity.
  - reflexivity.
  - reflexivity.
Defined.

(** ** The single-sentence path never fails *)






(** ** Encoding with a fitted vocabulary *)

(** The vocabulary of a tokenizer fitted once. *)
Lemma fit_on_texts_vocabulary (n : nat) (texts : list string) :
  let t := fit_on_texts texts (new_Tokenizer n) in
  let ws := concat (map text_to_word_sequence texts) in
  num_words t = n
  /\ map snd (word_index t) = seq 1 (length (word_index t))
  /\ NoDup (map fst (word_index t))
  /\ forall w, In w (map fst (word_index t)) <-> In w ws.
Proof.
  intros t ws.
  set (wc := fold_left (fun wc w => count_word w wc) ws []).
  set (sorted := sort_by_count wc).
  assert (Hwi : word_index t = combine (map fst sorted)
                                 (seq 1 (length (map fst sorted)))) by reflexivity.
  assert (Hnames : map fst (word_index t) = map fst sorted)
    by (rewrite Hwi; apply combine_seq_fst).
  assert (Hperm : Permutation sorted wc) by apply sort_by_count_perm.
  assert (Hnd : NoDup (map fst wc))
    by (apply fold_count_word_NoDup; constructor).
  split; [reflexivity|]. split; [|split].
  - rewrite Hwi, combine_seq_snd. f_equal.
    rewrite length_combine, length_seq. lia.
  - rewrite Hnames. apply NoDup_ListNoDup.
    apply (Permutation_NoDup (l := map fst wc)).
    + symmetry. apply Permutation_map. exact Hperm.
    + apply NoDup_ListNoDup. exact Hnd.
  - intros w. rewrite Hnames.
    assert (In w (map fst sorted) <-> In w (map fst wc)) as ->.
    { split; apply Permutation_in; [|symmetry]; apply Permutation_map; exact Hperm. }
    unfold wc. rewrite fold_count_word_In. simpl. tauto.
Qed.

Lemma fitted_rank (n : nat) (texts : list string) (w : string) :
  let t := fit_on_texts texts (new_Tokenizer n) in
  In w (concat (map text_to_word_sequence texts)) ->
  exists r, assoc w (word_index t) = Some r /\ 1 <= r <= length (word_index t).
Proof.
  intros t Hw.
  destruct (fit_on_texts_vocabulary n texts) as [_ [Hranks [Hnd Hin]]].
  fold t in Hranks, Hnd, Hin.
  apply Hin, in_map_iff in Hw as [[w' r] [Hw' Hwr]]. simpl in Hw'. subst w'.
  exists r. split; [apply NoDup_assoc; assumption|].
  apply (in_map snd) in Hwr. rewrite Hranks in Hwr. apply in_seq in Hwr.
  cbn [snd] in Hwr. lia.
Qed.

Lemma unfitted_rank (n : nat) (texts : list string) (w : string) :
  let t := fit_on_texts texts (new_Tokenizer n) in
  ~ In w (concat (map text_to_word_sequence texts)) ->
  assoc w (word_index t) = None.
Proof.
  intros t Hw. destruct (assoc w (word_index t)) as [r|] eqn:E; [|reflexivity].
  exfalso. apply Hw.
  destruct (fit_on_texts_vocabulary n texts) as [_ [_ [_ Hin]]].
  apply Hin. apply assoc_Some_In in E. apply (in_map fst) in E. exact E.
Qed.

Lemma encode_words_app (t : Tokenizer) (ws1 ws2 : list string) :
  encode_words t (ws1 ++ ws2)%list = (encode_words t ws1 ++ encode_words t ws2)%list.
Proof. unfold encode_words. apply flat_map_app. Qed.

(** X11.  After [train_tokenizer] on a new preprocessor whose
    [max_nb_words] is 0 or exceeds the size of the vocabulary, a fitted
    text is encoded word for word: the sequence holds the rank of every
    word of the text, in order, and no rank is 0.  Whatever the cap, a
    word that occurs in no fitted text is left out of every sequence. *)
Theorem encoding_of_fitted_texts :
  forall (n L : nat) (cd uef : bool) (train test : list string),
    let t := tokenizer (train_tokenizer train test (init n L cd uef)) in
    (forall text,
       In text (fitted_texts cd train test) ->
       n = 0 \/ length (word_index t) < n ->
       encode_words t (text_to_word_sequence text)
       = map (rank_of t) (text_to_word_sequence text)
       /\ Forall (fun r => 1 <= r) (encode_words t (text_to_word_sequence text)))
    /\ (forall w ws1 ws2,
          ~ In w (fitted_words cd train test) ->
          encode_words t (ws1 ++ w :: ws2)%list = encode_words t (ws1 ++ ws2)%list).
Proof.
  intros n L cd uef train test t.
  assert (Ht : t = fit_on_texts (fitted_texts cd train test) (new_Tokenizer n))
    by apply train_tokenizer_fit.
  split.
  - intros text Htext Hcap.
    assert (Hws : forall w, In w (text_to_word_sequence text) ->
              exists r, assoc w (word_index t) = Some r
                        /\ 1 <= r <= length (word_index t)).
    { intros w Hw. rewrite Ht. apply fitted_rank.
      apply in_concat. exists (text_to_word_sequence text).
      split; [apply in_map, Htext|exact Hw]. }
    assert (Hn : num_words t = n) by (rewrite Ht; reflexivity).
    induction (text_to_word_sequence text) as [|w ws IH]; [split; [reflexivity|constructor]|].
    destruct IH as [IH1 IH2]; [intros w' Hw'; apply Hws; right; exact Hw'|].
    destruct (Hws w (or_introl eq_refl)) as [r [Hr Hbound]].
    assert (encode_words t (w :: ws) = r :: encode_words t ws) as Henc.
    { unfold encode_words. cbn [flat_map]. rewrite Hr, Hn.
      destruct Hcap as [->|Hcap]; [reflexivity|].
      destruct (Nat.leb_spec n r) as [Hle|_]; [lia|].
      rewrite andb_false_r. reflexivity. }
    rewrite Henc. split.
    + cbn [map]. unfold rank_of at 1. rewrite Hr, IH1. reflexivity.
    + constructor; [lia|exact IH2].
  - intros w ws1 ws2 Hw. rewrite !encode_words_app. f_equal.
    change (w :: ws2) with ([w] ++ ws2)%list. rewrite encode_words_app.
    assert (encode_words t [w] = []) as ->; [|reflexivity].
    unfold encode_words. cbn [flat_map]. rewrite Ht.
    rewrite (unfitted_rank n (fitted_texts cd train test) w Hw). reflexivity.
Qed.

(** ** Fitting the tokenizer a second time *)

Lemma count_word_present (w : string) (wc : list (string * nat)) :
  NoDup (map fst wc) -> In w (map fst wc) ->
  count_word w wc
  = map (fun p => (fst p, snd p + (if String.eqb (fst p) w then 1 else 0))) wc.
Proof.
  induction wc as [|[k n] wc IH]; [intros _ []|].
  cbn [map fst]. intros Hnd Hin. apply NoDup_cons in Hnd as [Hk Hnd].
  cbn [count_word map fst snd]. rewrite (String.eqb_sym k w).
  destruct (String.eqb_spec w k) as [->|Hne].
  - f_equal; [f_equal; lia|].
    rewrite <- (map_id wc) at 1. apply map_ext_in. intros [k' n'] Hp.
    cbn [fst snd]. destruct (String.eqb_spec k' k) as [->|_].
    + exfalso. apply Hk. apply list_elem_of_In. apply (in_map fst) in Hp. exact Hp.
    + f_equal. lia.
  - f_equal; [f_equal; lia|]. apply IH; [exact Hnd|].
    destruct Hin as [Hin|Hin]; [congruence|exact Hin].
Qed.

Lemma fold_count_word_present (ws : list string) (wc : list (string * nat)) :
  NoDup (map fst wc) -> (forall w, In w ws -> In w (map fst wc)) ->
  fold_left (fun wc w => count_word w wc) ws wc
  = map (fun p => (fst p, snd p + occurrences (fst p) ws)) wc.
Proof.
  revert wc. induction ws as [|w ws IH]; intros wc Hnd Hin.
  - cbn [fold_left]. rewrite <- (map_id wc) at 1. apply map_ext.
    intros [k n]. cbn [fst snd]. unfold occurrences. simpl. f_equal. lia.
  - cbn [fold_left].
    rewrite (count_word_present w wc Hnd (Hin w (or_introl eq_refl))).
    rewrite IH.
    + rewrite map_map. apply map_ext. intros [k n]. cbn [fst snd].
      unfold occurrences. cbn [List.filter].
      destruct (String.eqb k w); cbn [length]; f_equal; lia.
    + rewrite map_map. cbn [fst]. exact Hnd.
    + intros w' Hw'. rewrite map_map. cbn [fst]. apply Hin. right. exact Hw'.
Qed.

Lemma insert_by_count_map (d : nat -> nat) (x : string * nat)
    (l : list (string * nat)) :
  (forall a b, (d a <? d b)%nat = (a <? b)%nat) ->
  insert_by_count (fst x, d (snd x)) (map (fun p => (fst p, d (snd p))) l)
  = map (fun p => (fst p, d (snd p))) (insert_by_count x l).
Proof.
  intros Hd. induction l as [|y l IH]; [reflexivity|].
  cbn [map insert_by_count fst snd]. rewrite Hd.
  destruct (snd x <? snd y)%nat; cbn [map]; [rewrite IH|]; reflexivity.
Qed.

Lemma sort_by_count_map (d : nat -> nat) (l : list (string * nat)) :
  (forall a b, (d a <? d b)%nat = (a <? b)%nat) ->
  sort_by_count (map (fun p => (fst p, d (snd p))) l)
  = map (fun p => (fst p, d (snd p))) (sort_by_count l).
Proof.
  intros Hd. induction l as [|x l IH]; [reflexivity|].
  cbn [map sort_by_count fold_right]. unfold sort_by_count in IH. rewrite IH.
  apply (insert_by_count_map d x _ Hd).
Qed.

Lemma double_ltb (a b : nat) : (a + a <? b + b)%nat = (a <? b)%nat.
Proof.
  destruct (Nat.ltb_spec a b), (Nat.ltb_spec (a + a) (b + b)); try reflexivity; lia.
Qed.

(** X12.  Calling [train_tokenizer] a second time with the same data
    doubles every word count and leaves [word_index] as it is. *)
Theorem train_tokenizer_again :
  forall (n L : nat) (cd uef : bool) (train test : list string),
    let once := train_tokenizer train test (init n L cd uef) in
    let twice := train_tokenizer train test once in
    word_index (tokenizer twice) = word_index (tokenizer once)
    /\ forall w, count_of w (word_counts (tokenizer twice))
                 = 2 * count_of w (word_counts (tokenizer once)).
Proof.
  intros n L cd uef train test once twice.
  set (ws := fitted_words cd train test).
  set (wc := fold_left (fun wc w => count_word w wc) ws []).
  assert (H1 : tokenizer once
               = mkTokenizer n wc (index_words (map fst (sort_by_count wc)))).
  { unfold once. rewrite train_tokenizer_fit. reflexivity. }
  assert (H2 : tokenizer twice
               = fit_on_texts (fitted_texts cd train test) (tokenizer once)).
  { unfold twice, train_tokenizer, fitted_texts.
    assert (combine_data once = cd) as -> by (unfold once, train_tokenizer; destruct cd; reflexivity).
    destruct cd; reflexivity. }
  assert (Hnd : NoDup (map fst wc))
    by (apply fold_count_word_NoDup; constructor).
  assert (Hin : forall w, In w ws -> In w (map fst wc)).
  { intros w Hw. unfold wc. apply fold_count_word_In. left. exact Hw. }
  assert (Hwc2 : fold_left (fun wc w => count_word w wc) ws wc
                 = map (fun p => (fst p, snd p + snd p)) wc).
  { rewrite (fold_count_word_present ws wc Hnd Hin).
    apply map_ext_in. intros [k c] Hp. cbn [fst snd]. f_equal. f_equal.
    pose proof (count_of_fold k ws []) as Hc. fold wc in Hc.
    unfold count_of in Hc. rewrite (NoDup_assoc _ _ _ Hnd Hp) in Hc.
    simpl in Hc. lia. }
  rewrite H2, H1.
  change (fit_on_texts (fitted_texts cd train test)
            (mkTokenizer n wc (index_words (map fst (sort_by_count wc)))))
    with (mkTokenizer n (fold_left (fun wc w => count_word w wc) ws wc)
            (index_words
               (map fst (sort_by_count
                           (fold_left (fun wc w => count_word w wc) ws wc))))).
  cbn [word_counts word_index]. rewrite Hwc2. split.
  - rewrite (sort_by_count_map (fun a => a + a) wc double_ltb).
    rewrite map_map. reflexivity.
  - intros w. unfold count_of.
    rewrite (assoc_map_snd (fun c => c + c)).
    destruct (assoc w wc); simpl; lia.
Qed.

(** ** The files that main writes *)

Section MainFiles.

Variables Matrix Vectorizer Weights : Type.
Variable tfidf_fit_transform : N -> list cell -> Matrix * Vectorizer.
Variable tfidf_transform : Vectorizer -> list cell -> Matrix.
Variable ridge_solve : Matrix -> list cell -> Weights.
Variable ridge_predict : Weights -> Matrix -> list cell.

Variable paths : list string.

Lemma writes_only_bind {A B} (m : M (FeatureEngineering.world Weights) A)
    (k : A -> M (FeatureEngineering.world Weights) B) :
  writes_only paths m -> (forall a, writes_only paths (k a)) ->
  writes_only paths (bind m k).
Proof.
  intros Hm Hk w p Hp. unfold bind. specialize (Hm w p Hp).
  destruct (m w) as [w' [a|e]]; cbn [fst] in *.
  - rewrite (Hk a w' p Hp). exact Hm.
  - exact Hm.
Qed.

Lemma writes_only_ret {A} (a : A) :
  writes_only paths (ret a : M (FeatureEngineering.world Weights) A).
Proof. intros w p _. reflexivity. Qed.

Lemma writes_only_lift_result {A} (r : result A) :
  writes_only paths (lift_result r : M (FeatureEngineering.world Weights) A).
Proof. intros w p _. reflexivity. Qed.

Lemma writes_only_on_frames {A} (m : M heap A) :
  writes_only paths (FeatureEngineering.on_frames Weights m).
Proof.
  intros w p _. unfold FeatureEngineering.on_frames.
  destruct (m (FeatureEngineering.frames Weights w)). reflexivity.
Qed.

Lemma writes_only_on_models {A} (m : M (gmap nat (option Weights)) A) :
  writes_only paths (FeatureEngineering.on_models Weights m).
Proof.
  intros w p _. unfold FeatureEngineering.on_models.
  destruct (m (FeatureEngineering.models Weights w)). reflexivity.
Qed.

Lemma writes_only_read_csv (path : string) :
  writes_only paths (FeatureEngineering.read_csv Weights path).
Proof.
  intros w p Hp. unfold FeatureEngineering.read_csv.
  destruct (FeatureEngineering.disk Weights w !! path); [|reflexivity].
  apply writes_only_on_frames. exact Hp.
Qed.

Lemma writes_only_values (df : nat) (name : string) :
  writes_only paths (values Weights df name).
Proof.
  unfold values. apply writes_only_bind; [apply writes_only_on_frames|].
  intros d. apply writes_only_lift_result.
Qed.

Lemma writes_only_assign (df : nat) (name : string) (xs : list cell) :
  writes_only paths (assign Weights df name xs).
Proof.
  unfold assign. apply writes_only_bind; [apply writes_only_on_frames|].
  intros d. destruct (length xs =? nrows d)%nat.
  - apply writes_only_on_frames.
  - intros w p _. reflexivity.
Qed.

Lemma writes_only_TfidfAndPredict (tfidfer : Vectorizer) (model train test : nat) :
  writes_only paths
    (TfidfAndPredict Matrix Vectorizer Weights tfidf_transform ridge_predict
       tfidfer model train test).
Proof.
  unfold TfidfAndPredict.
  repeat first
    [ apply writes_only_ret
    | apply writes_only_lift_result
    | apply writes_only_on_frames
    | apply writes_only_on_models
    | apply writes_only_bind; [|intros ?] ].
Qed.

Lemma writes_only_to_csv (df : nat) (path : string) :
  In path paths -> writes_only paths (to_csv Weights df path).
Proof.
  intros Hin. unfold to_csv. apply writes_only_bind; [apply writes_only_on_frames|].
  intros d w p Hp. cbn [fst FeatureEngineering.disk].
  apply lookup_insert_ne. intros ->. contradiction.
Qed.

End MainFiles.

(** X13.  Whether it returns or raises, [main] leaves every file as it
    is but the two it writes, "./data/train_with_convai_ridge.csv" and
    "./data/test_with_convai_ridge.csv"; among the files it leaves are
    the two that [load_and_tokenize] reads for the extra features. *)
Theorem main_writes_two_files :
  forall (Matrix Vectorizer Weights : Type)
         (tfidf_fit_transform : N -> list cell -> Matrix * Vectorizer)
         (tfidf_transform : Vectorizer -> list cell -> Matrix)
         (ridge_solve : Matrix -> list cell -> Weights)
         (ridge_predict : Weights -> Matrix -> list cell)
         (w : FeatureEngineering.world Weights),
    let w' := fst (main Matrix Vectorizer Weights tfidf_fit_transform
                     tfidf_transform ridge_solve ridge_predict w) in
    (forall p, p <> "./data/train_with_convai_ridge.csv" ->
               p <> "./data/test_with_convai_ridge.csv" ->
               FeatureEngineering.disk Weights w' !! p
               = FeatureEngineering.disk Weights w !! p)
    /\ FeatureEngineering.disk Weights w' !! "./data/train_with_convai.csv"
       = FeatureEngineering.disk Weights w !! "./data/train_with_convai.csv"
    /\ FeatureEngineering.disk Weights w' !! "./data/test_with_convai.csv"
       = FeatureEngineering.disk Weights w !! "./data/test_with_convai.csv".
Proof.
  intros Matrix Vectorizer Weights tf tt rs rp w w'.
  assert (H : writes_only ["./data/train_with_convai_ridge.csv";
                           "./data/test_with_convai_ridge.csv"]
                (main Matrix Vectorizer Weights tf tt rs rp)).
  { unfold main.
    repeat first
      [ apply writes_only_ret
      | apply writes_only_read_csv
      | apply writes_only_on_frames
      | apply writes_only_on_models
      | apply writes_only_values
      | apply writes_only_assign
      | apply writes_only_TfidfAndPredict
      | apply writes_only_to_csv; simpl; tauto
      | apply writes_only_bind; [|intros ?] ]. }
  split; [|split].
  - intros p H1 H2. apply H. simpl. intros [E|[E|[]]]; congruence.
  - apply H. simpl. intros [E|[E|[]]]; discriminate.
  - apply H. simpl. intros [E|[E|[]]]; discriminate.
Qed.

(** ** A run of main *)

Lemma run_Ok_inv {S A} (s s' : S) (a b : A) :
  (s, Ok a) = (s', Ok b) -> s = s' /\ a = b.
Proof. intros H. split; congruence. Qed.

Lemma fresh_insert_ne (l : nat) (d : DataFrame) (h : heap) :
  fresh (dom (<[l := d]> h)) <> l.
Proof.
  intros E. pose proof (is_fresh (dom (<[l := d]> h))) as H.
  rewrite E in H. apply H. rewrite dom_insert. set_solver.
Qed.

Section MainRun.

Variables Matrix Vectorizer Weights : Type.
Variable tfidf_fit_transform : N -> list cell -> Matrix * Vectorizer.
Variable tfidf_transform : Vectorizer -> list cell -> Matrix.
Variable ridge_solve : Matrix -> list cell -> Weights.
Variable ridge_predict : Weights -> Matrix -> list cell.

Local Abbreviation world := (FeatureEngineering.world Weights).
Local Abbreviation mkW := (FeatureEngineering.mkWorld Weights).
Local Abbreviation wframes := (FeatureEngineering.frames Weights).
Local Abbreviation wmodels := (FeatureEngineering.models Weights).
Local Abbreviation wdisk := (FeatureEngineering.disk Weights).














End MainRun.


(** ** A run of main that fails *)

Section MainFailure.

Variables Matrix Vectorizer Weights : Type.
Variable tfidf_fit_transform : N -> list cell -> Matrix * Vectorizer.
Variable tfidf_transform : Vectorizer -> list cell -> Matrix.
Variable ridge_solve : Matrix -> list cell -> Weights.
Variable ridge_predict : Weights -> Matrix -> list cell.

Local Abbreviation world := (FeatureEngineering.world Weights).
Local Abbreviation mkW := (FeatureEngineering.mkWorld Weights).
Local Abbreviation wdisk := (FeatureEngineering.disk Weights).

Variable files : gmap string DataFrame.




End MainFailure.



(** ** Runs of load_and_tokenize *)

Lemma mapR_as_text_normalized (xs : list cell) :
  mapR as_text (map normalized xs) = Ok (map normalized_text xs).
Proof.
  induction xs as [|x xs IH]; simpl; [reflexivity|]. rewrite IH. reflexivity.
Qed.

Lemma train_tokenizer_settings (train_data test_data : list string)
    (self : TextPreprocessor) :
  let self' := train_tokenizer train_data test_data self in
  max_nb_words self' = max_nb_words self
  /\ max_padding_length self' = max_padding_length self
  /\ combine_data self' = combine_data self
  /\ use_extra_features self' = use_extra_features self.
Proof.
  unfold train_tokenizer. destruct (combine_data self) eqn:E; cbn; rewrite ?E; auto.
Qed.

Section LoadAndTokenizeRuns.

Variable files : gmap string DataFrame.
Variables SampleText SampleTarget : Type.
Variable get_sentence :
  nat -> list string -> nat -> M heap (SampleText * SampleTarget).

Local Abbreviation run_load :=
  (load_and_tokenize files SampleText SampleTarget get_sentence).

Lemma state_on_frames_Ok {A} (m : M heap A) (st st1 : state) (a : A) :
  Preprocessing.on_frames m st = (st1, Ok a) ->
  exists h, m (Preprocessing.frames st) = (h, Ok a)
            /\ st1 = mkState (self_ st) h.
Proof.
  unfold Preprocessing.on_frames.
  destruct (m (Preprocessing.frames st)) as [h [b|e]]; intros H; [|congruence].
  apply run_Ok_inv in H as [<- <-]. exists h. split; reflexivity.
Qed.

Lemma state_read_csv_Ok (p : string) (st st1 : state) (l : nat) :
  Preprocessing.on_frames (Preprocessing.read_csv files p) st = (st1, Ok l) ->
  exists df, files !! p = Some df /\ l = fresh (dom (Preprocessing.frames st))
    /\ st1 = mkState (self_ st) (<[l := df]> (Preprocessing.frames st)).
Proof.
  intros H. apply state_on_frames_Ok in H as (h & E & ->).
  unfold Preprocessing.read_csv in E.
  destruct (files !! p) as [df|]; [|unfold raise in E; congruence].
  unfold new_frame in E. apply run_Ok_inv in E as [<- <-].
  exists df. repeat split.
Qed.

Lemma reads_Ok (p1 p2 : string) (self : TextPreprocessor) (h0 : heap)
    (st1 : state) (tt_ : nat * nat) :
  (train <- Preprocessing.on_frames (Preprocessing.read_csv files p1) ;;
   test <- Preprocessing.on_frames (Preprocessing.read_csv files p2) ;;
   ret (train, test)) (mkState self h0) = (st1, Ok tt_) ->
  exists train_in test_in,
    files !! p1 = Some train_in /\ files !! p2 = Some test_in
    /\ snd tt_ <> fst tt_
    /\ st1 = mkState self (<[snd tt_ := test_in]> (<[fst tt_ := train_in]> h0)).
Proof.
  intros H.
  apply bind_Ok_inv in H as (train & s1 & E & H).
  apply state_read_csv_Ok in E as (train_in & H1 & -> & ->).
  apply bind_Ok_inv in H as (test & s2 & E & H).
  apply state_read_csv_Ok in E as (test_in & H2 & -> & ->).
  unfold ret in H. apply run_Ok_inv in H as [<- <-].
  exists train_in, test_in. cbn [fst snd self_ Preprocessing.frames].
  repeat split; try assumption. apply fresh_insert_ne.
Qed.

Lemma lift_result_Ok {S A} (r : result A) (s s1 : S) (a : A) :
  lift_result r s = (s1, Ok a) -> s1 = s /\ r = Ok a.
Proof. unfold lift_result. intros H. split; congruence. Qed.

Lemma local_Ok {S A} (n : string) (v : option A) (s s1 : S) (a : A) :
  local n v s = (s1, Ok a) -> s1 = s /\ v = Some a.
Proof.
  unfold local. destruct v as [b|]; unfold ret, raise; intros H;
    [split; congruence|congruence].
Qed.

(** X16.  With a helper [get_sentence] that leaves the frames as they
    are, a run of [load_and_tokenize] that returns has read the two files
    that [use_extra_features] selects, the tokenizer it leaves in the
    preprocessor is the one fitted by [train_tokenizer] to the normalized
    comments of the two files, and the rows it returns are the padded
    encodings of these comments by that tokenizer, together with its
    [word_index]; the targets are the class columns of the training
    table, and the auxiliary columns are returned exactly when
    [use_extra_features] is set. *)
Theorem load_and_tokenize_returns :
  forall (class_list : list string) (sample_index : option nat)
         (st st' : state) (d : dataset SampleText SampleTarget),
    (forall i c l h, fst (get_sentence i c l h) = h) ->
    run_load class_list sample_index st = (st', Ok d) ->
    let self := self_ st in
    exists (train_in test_in : DataFrame) (xs ys : list cell),
      files !! train_path self = Some train_in
      /\ files !! test_path self = Some test_in
      /\ col "comment_text" train_in = Some xs
      /\ col "comment_text" test_in = Some ys
      /\ let train_comments := map normalized_text xs in
         let test_comments := map normalized_text ys in
         let self' := train_tokenizer train_comments test_comments self in
         self_ st' = self'
         /\ word_index_of d = word_index (tokenizer self')
         /\ pad_sequences (texts_to_sequences (tokenizer self') train_comments)
              (max_padding_length self) = Ok (X_train_of d)
         /\ pad_sequences (texts_to_sequences (tokenizer self') test_comments)
              (max_padding_length self) = Ok (X_test_of d)
         /\ getitems class_list
              (setitem "comment_text" (map normalized xs) train_in)
            = Ok (y_train_of d)
         /\ has_aux d = use_extra_features self.
Proof.
  intros class_list sample_index [self h0] st' d Hgs H self0. subst self0.
  cbn [self_]. unfold load_and_tokenize in H.
  unfold bind at 1 in H. unfold get_self at 1 in H. cbn [self_] in H.
  apply bind_Ok_inv in H as (tt_ & st1 & E & H).
  assert (Hreads : exists train_in test_in,
            files !! train_path self = Some train_in
            /\ files !! test_path self = Some test_in
            /\ snd tt_ <> fst tt_
            /\ st1 = mkState self (<[snd tt_ := test_in]> (<[fst tt_ := train_in]> h0))).
  { unfold train_path, test_path.
    destruct (use_extra_features self); apply reads_Ok in E; exact E. }
  clear E. destruct Hreads as (train_in & test_in & Htrain & Htest & Hne & ->).
  destruct tt_ as [train test]. cbn [fst snd] in *.
  assert (Hne' : train <> test) by congruence.
  (* the two calls of text_normalization *)
  apply bind_Ok_inv in H as ([] & st1 & E & H).
  apply state_on_frames_Ok in E as (h & E & ->).
  cbn [self_ Preprocessing.frames] in *.
  pose proof (text_normalization_cases train
                (<[test:=test_in]> (<[train:=train_in]> h0))) as Hc.
  rewrite lookup_insert_ne, lookup_insert_eq in Hc by assumption.
  destruct (col "comment_text" train_in) as [xs|] eqn:Hxs;
    [|rewrite Hc in E; congruence].
  destruct (forallb textual xs);
    [|destruct Hc as [h' Hc]; rewrite Hc in E; congruence].
  rewrite Hc in E. clear Hc. apply run_Ok_inv in E as [<- _].
  set (tr := setitem "comment_text" (map normalized xs) train_in) in *.
  apply bind_Ok_inv in H as ([] & st1 & E & H).
  apply state_on_frames_Ok in E as (h & E & ->).
  cbn [self_ Preprocessing.frames] in *.
  pose proof (text_normalization_cases test
                (<[train:=tr]> (<[test:=test_in]> (<[train:=train_in]> h0)))) as Hc.
  rewrite lookup_insert_ne, lookup_insert_eq in Hc by assumption.
  destruct (col "comment_text" test_in) as [ys|] eqn:Hys;
    [|rewrite Hc in E; congruence].
  destruct (forallb textual ys);
    [|destruct Hc as [h' Hc]; rewrite Hc in E; congruence].
  rewrite Hc in E. clear Hc. apply run_Ok_inv in E as [<- _].
  set (te := setitem "comment_text" (map normalized ys) test_in) in *.
  set (h1 := <[test:=te]>
               (<[train:=tr]> (<[test:=test_in]> (<[train:=train_in]> h0)))) in *.
  assert (Htr : h1 !! train = Some tr).
  { subst h1. rewrite lookup_insert_ne by assumption. apply lookup_insert_eq. }
  assert (Hte : h1 !! test = Some te) by apply lookup_insert_eq.
  clearbody h1.
  (* the sample *)
  apply bind_Ok_inv in H as (sample & st1 & E & H).
  assert (st1 = mkState self h1) as ->.
  { destruct sample_index as [i|].
    - apply bind_Ok_inv in E as (s & st2 & E & E').
      apply state_on_frames_Ok in E as (h & E & ->).
      cbn [self_ Preprocessing.frames] in *.
      pose proof (Hgs i class_list train h1) as Hh. rewrite E in Hh.
      cbn [fst] in Hh. subst h. unfold ret in E'. congruence.
    - unfold ret in E. congruence. }
  clear E.
  (* the columns *)
  apply bind_Ok_inv in H as (tr0 & st1 & E & H).
  apply state_on_frames_Ok in E as (h & E & ->).
  cbn [self_ Preprocessing.frames] in *.
  unfold read_frame in E. rewrite Htr in E. apply run_Ok_inv in E as [<- <-].
  apply bind_Ok_inv in H as (te0 & st1 & E & H).
  apply state_on_frames_Ok in E as (h & E & ->).
  cbn [self_ Preprocessing.frames] in *.
  unfold read_frame in E. rewrite Hte in E. apply run_Ok_inv in E as [<- <-].
  apply bind_Ok_inv in H as (train_comments & st1 & E & H).
  apply lift_result_Ok in E as (-> & E).
  unfold getitem in E. subst tr. rewrite col_setitem_eq in E. cbn [rbind] in E.
  rewrite mapR_as_text_normalized in E. apply Ok_inj in E as <-.
  apply bind_Ok_inv in H as (y_train & st1 & E & H).
  apply lift_result_Ok in E as (-> & Hy).
  apply bind_Ok_inv in H as (test_comments & st1 & E & H).
  apply lift_result_Ok in E as (-> & E).
  unfold getitem in E. subst te. rewrite col_setitem_eq in E. cbn [rbind] in E.
  rewrite mapR_as_text_normalized in E. apply Ok_inj in E as <-.
  apply bind_Ok_inv in H as (aux & st1 & E & H).
  assert (st1 = mkState self h1) as ->.
  { destruct (use_extra_features self).
    - apply bind_Ok_inv in E as (x1 & s1 & E1 & E).
      apply lift_result_Ok in E1 as (-> & _).
      apply bind_Ok_inv in E as (x2 & s2 & E2 & E).
      apply lift_result_Ok in E2 as (-> & _).
      unfold ret in E. congruence.
    - unfold ret in E. congruence. }
  clear E.
  (* the tokenizer *)
  apply bind_Ok_inv in H as ([] & st1 & E & H).
  unfold modify_self in E. apply run_Ok_inv in E as [<- _].
  cbn [self_ Preprocessing.frames] in *.
  apply bind_Ok_inv in H as (self1 & st1 & E & H).
  unfold get_self in E. apply run_Ok_inv in E as [<- <-].
  cbn [self_ Preprocessing.frames] in *.
  set (self' := train_tokenizer (map normalized_text xs) (map normalized_text ys) self) in *.
  destruct (train_tokenizer_settings (map normalized_text xs)
              (map normalized_text ys) self) as (_ & HL & _ & Hu).
  fold self' in HL, Hu. rewrite HL, Hu in H.
  apply bind_Ok_inv in H as (X_train & st1 & E & H).
  apply lift_result_Ok in E as (-> & HXtrain).
  apply bind_Ok_inv in H as (X_test & st1 & E & H).
  apply lift_result_Ok in E as (-> & HXtest).
  assert (Hd : st' = mkState self' h1
               /\ word_index_of d = word_index (tokenizer self')
               /\ X_train_of d = X_train /\ X_test_of d = X_test
               /\ y_train_of d = y_train
               /\ has_aux d = use_extra_features self).
  { destruct (use_extra_features self).
    - do 4 (apply bind_Ok_inv in H as (? & ? & E & H);
            apply local_Ok in E as (-> & _)).
      unfold ret in H. apply run_Ok_inv in H as [<- <-]. repeat split.
    - do 2 (apply bind_Ok_inv in H as (? & ? & E & H);
            apply local_Ok in E as (-> & _)).
      unfold ret in H. apply run_Ok_inv in H as [<- <-]. repeat split. }
  destruct Hd as (-> & Hwi & <- & <- & <- & Haux).
  exists train_in, test_in, xs, ys.
  repeat split; assumption.
Qed.



Lemma bind_Raise {S A B} (m : M S A) (k : A -> M S B) (s s' : S) (e : exn) :
  m s = (s', Raise e) -> bind m k s = (s', Raise e).
Proof. intros H. unfold bind. rewrite H. reflexivity. Qed.

Lemma bind_Ok {S A B} (m : M S A) (k : A -> M S B) (s s' : S) (a : A) :
  m s = (s', Ok a) -> bind m k s = k a s'.
Proof. intros H. unfold bind. rewrite H. reflexivity. Qed.

(** X17.  A file that is not there: without the training file
    [load_and_tokenize] raises [FileNotFoundError] for the path that
    [use_extra_features] selects and leaves the state as it is; without
    the test file it raises for the test path, the training table being
    then a new frame of the store.  The tokenizer is not touched. *)
Theorem load_and_tokenize_missing_file :
  forall (class_list : list string) (sample_index : option nat) (st : state),
    (files !! train_path (self_ st) = None ->
     run_load class_list sample_index st
     = (st, Raise (FileNotFoundError (train_path (self_ st)))))
    /\ (forall train_in,
          files !! train_path (self_ st) = Some train_in ->
          files !! test_path (self_ st) = None ->
          run_load class_list sample_index st
          = (mkState (self_ st)
               (<[fresh (dom (Preprocessing.frames st)) := train_in]>
                  (Preprocessing.frames st)),
             Raise (FileNotFoundError (test_path (self_ st))))).
Proof.
  intros class_list sample_index [self h0]. cbn [self_ Preprocessing.frames].
  unfold train_path, test_path, load_and_tokenize.
  rewrite (bind_Ok get_self _ _ _ _ eq_refl). cbn [self_].
  destruct (use_extra_features self); split.
  all: try (intros Hnone; apply bind_Raise, bind_Raise;
            unfold Preprocessing.on_frames, Preprocessing.read_csv;
            cbn [Preprocessing.frames]; rewrite Hnone; reflexivity).
  all: intros train_in Hsome Hnone; apply bind_Raise;
       erewrite bind_Ok;
       [|unfold Preprocessing.on_frames, Preprocessing.read_csv;
         cbn [Preprocessing.frames]; rewrite Hsome; reflexivity];
       apply bind_Raise;
       unfold Preprocessing.on_frames, Preprocessing.read_csv;
       cbn [Preprocessing.frames]; rewrite Hnone; reflexivity.
Qed.


End LoadAndTokenizeRuns.

Lemma example_get_sentence_reads (i : nat) (c : list string) (l : nat) (h : heap) :
  fst (example_get_sentence i c l h) = h.
Proof.
  unfold example_get_sentence, bind, read_frame, lift_result.
  destruct (h !! l); reflexivity.
Qed.

Lemma load_and_tokenize_returns_witness :
  let self := init 10 4 false false in
  let st' := fst (load_and_tokenize example_files string (list cell)
                    example_get_sentence ["toxic"] (Some 1) example_state) in
  let d := Plain string (list cell)
             [[0; 1; 2; 3]; [1; 2; 4; 5]] [[Num 0]; [Num 1]] [[0; 0; 2; 1]]
             [("you", 1); ("are", 2); ("great", 3); ("n", 4); ("t", 5)]
             "you are n t" [Num 1] in
  exists (train_in test_in : DataFrame) (xs ys : list cell),
    example_files !! train_path self = Some train_in
    /\ example_files !! test_path self = Some test_in
    /\ col "comment_text" train_in = Some xs
    /\ col "comment_text" test_in = Some ys
    /\ let train_comments := map normalized_text xs in
       let test_comments := map normalized_text ys in
       let self' := train_tokenizer train_comments test_comments self in
       self_ st' = self'
       /\ word_index_of d = word_index (tokenizer self')
       /\ pad_sequences (texts_to_sequences (tokenizer self') train_comments)
            (max_padding_length self) = Ok (X_train_of d)
       /\ pad_sequences (texts_to_sequences (tokenizer self') test_comments)
            (max_padding_length self) = Ok (X_test_of d)
       /\ getitems ["toxic"]
            (setitem "comment_text" (map normalized xs) train_in)
          = Ok (y_train_of d)
       /\ has_aux d = use_extra_features self.
Proof.
  intros self st' d.
  apply (load_and_tokenize_returns example_files string (list cell)
           example_get_sentence ["toxic"] (Some 1) example_state st' d).
  - exact example_get_sentence_reads.
  - vm_compute. reflexivity.
Defined.

Lemma load_and_tokenize_missing_file_witness :
  load_and_tokenize ∅ string (list cell) example_get_sentence ["toxic"] (Some 1)
    example_state
  = (example_state, Raise (FileNotFoundError "./data/train.csv"))
  /\ snd (load_and_tokenize
            (<["./data/train.csv" := example_frame "comment_text" example_cells]> ∅)
            string (list cell) example_get_sentence ["toxic"] (Some 1)
            example_state)
     = Raise (FileNotFoundError "./data/test.csv").
Proof.
  split.
  - apply (load_and_tokenize_missing_file ∅ string (list cell)
             example_get_sentence ["toxic"] (Some 1) example_state).
    vm_compute. reflexivity.
  - rewrite (proj2 (load_and_tokenize_missing_file
                      (<["./data/train.csv" := example_frame "comment_text" example_cells]> ∅)
                      string (list cell)
                      example_get_sentence ["toxic"] (Some 1) example_state)
               (example_frame "comment_text" example_cells)).
    + reflexivity.
    + vm_compute. reflexivity.
    + vm_compute. reflexivity.
Defined.

(** ** The text column of Sanitize, Tfidfize and TfidfAndPredict *)

Section TextColumn.

Variables Matrix Vectorizer Weights : Type.
Variable tfidf_fit_transform : N -> list cell -> Matrix * Vectorizer.
Variable tfidf_transform : Vectorizer -> list cell -> Matrix.
Variable ridge_predict : Weights -> Matrix -> list cell.


End TextColumn.

